(** * GAIA Station integration: transport client, poll orchestrator,
      flattening transform and sensor catalog

    A shallow embedding of [custom_components/gaia_station] ([api.py],
    [coordinator.py], [sensor.py], [const.py]) and the properties of it
    that the specification states.

    Conventions of the embedding.
    - A Python [str] is a Rocq [string] holding its UTF-8 encoding; the
      operations the code uses on strings ([==], [+], f-string
      interpolation, [startswith], [in] on dict keys) are the same on
      both sides of that encoding.
    - A Python [dict] is an association list in insertion order
      ([dict_set] keeps the position of a key that is already there, as
      Python does).
    - A call that can raise returns a [result]; the [try]/[except]
      chains of the source are [try_except] with the handlers in source
      order.
    - Logging calls have no effect on any value the code returns or
      stores, and are left out. *)

From Stdlib Require Import List String Ascii ZArith Bool Arith Lia DecimalString.
Import ListNotations.
Open Scope string_scope.
Open Scope list_scope.
Set Warnings "-register-all".

(* ================================================================== *)
(** * Python values, dictionaries and exceptions                       *)
(* ================================================================== *)

Module Py.

(** The exception classes that can occur in the modelled code: Python
    built-ins, the [aiohttp] client errors, the three classes declared
    in [api.py], and Home Assistant's [UpdateFailed]. *)
Inductive exc_class : Type :=
| Exception
| OSError
| TimeoutError            (* asyncio.TimeoutError is the same class *)
| ValueError
| JSONDecodeError
| UnicodeError
| UnicodeDecodeError
| AttributeError
| RecursionError
| ClientError
| ClientResponseError
| ClientConnectionError
| ClientOSError
| ClientConnectorError
| ClientConnectorDNSError
| ServerConnectionError
| ServerDisconnectedError
| ServerTimeoutError
| ClientPayloadError
| GaiaStationApiError
| GaiaStationConnectionError
| GaiaStationTimeoutError
| HomeAssistantError
| UpdateFailed.

Definition exc_class_eqb (c d : exc_class) : bool :=
  match c, d with
  | Exception, Exception | OSError, OSError | TimeoutError, TimeoutError
  | ValueError, ValueError | JSONDecodeError, JSONDecodeError
  | UnicodeError, UnicodeError | UnicodeDecodeError, UnicodeDecodeError
  | AttributeError, AttributeError | RecursionError, RecursionError
  | ClientError, ClientError | ClientResponseError, ClientResponseError
  | ClientConnectionError, ClientConnectionError
  | ClientOSError, ClientOSError
  | ClientConnectorError, ClientConnectorError
  | ClientConnectorDNSError, ClientConnectorDNSError
  | ServerConnectionError, ServerConnectionError
  | ServerDisconnectedError, ServerDisconnectedError
  | ServerTimeoutError, ServerTimeoutError
  | ClientPayloadError, ClientPayloadError
  | GaiaStationApiError, GaiaStationApiError
  | GaiaStationConnectionError, GaiaStationConnectionError
  | GaiaStationTimeoutError, GaiaStationTimeoutError
  | HomeAssistantError, HomeAssistantError
  | UpdateFailed, UpdateFailed => true
  | _, _ => false
  end.

(** The direct base classes, as the class statements give them.
    [api.py]: [GaiaStationApiError(Exception)] and its two
    specializations.  [aiohttp.client_exceptions]: [ClientOSError]
    and [ServerTimeoutError] have two bases. *)
Definition bases (c : exc_class) : list exc_class :=
  match c with
  | Exception => []
  | OSError => [Exception]
  | TimeoutError => [OSError]
  | ValueError => [Exception]
  | JSONDecodeError => [ValueError]
  | UnicodeError => [ValueError]
  | UnicodeDecodeError => [UnicodeError]
  | AttributeError => [Exception]
  | RecursionError => [Exception]
  | ClientError => [Exception]
  | ClientResponseError => [ClientError]
  | ClientConnectionError => [ClientError]
  | ClientOSError => [ClientConnectionError; OSError]
  | ClientConnectorError => [ClientOSError]
  | ClientConnectorDNSError => [ClientConnectorError]
  | ServerConnectionError => [ClientConnectionError]
  | ServerDisconnectedError => [ServerConnectionError]
  | ServerTimeoutError => [ServerConnectionError; TimeoutError]
  | ClientPayloadError => [ClientError]
  | GaiaStationApiError => [Exception]
  | GaiaStationConnectionError => [GaiaStationApiError]
  | GaiaStationTimeoutError => [GaiaStationApiError]
  | HomeAssistantError => [Exception]
  | UpdateFailed => [HomeAssistantError]
  end.

(** [issubclass c d]: [d] is [c] or an ancestor of [c].  No class above
    is more than six steps below [Exception]. *)
Fixpoint issubclass_upto (depth : nat) (c d : exc_class) : bool :=
  exc_class_eqb c d ||
  match depth with
  | O => false
  | S depth' => existsb (fun b => issubclass_upto depth' b d) (bases c)
  end.

Definition issubclass : exc_class -> exc_class -> bool := issubclass_upto 8.

(** A raised exception: its class, [str(err)], and the [status]
    attribute that [aiohttp.ClientResponseError] carries (0 on the
    other classes, where nothing reads it). *)
Record exception : Type := Exc {
  exc_type : exc_class;
  exc_str : string;
  exc_status : Z
}.

Definition new_exc (c : exc_class) (msg : string) : exception := Exc c msg 0.

Definition isinstance_exc (e : exception) (c : exc_class) : bool :=
  issubclass (exc_type e) c.

(** The outcome of a call: a returned value or a raised exception. *)
Inductive result (A : Type) : Type :=
| Return (a : A)
| Raise (e : exception).
Arguments Return {A} a.
Arguments Raise {A} e.

Definition bind {A B : Type} (m : result A) (k : A -> result B) : result B :=
  match m with
  | Return a => k a
  | Raise e => Raise e
  end.

(** [try: body except C1 as err: h1 ... except Cn as err: hn]: the
    first handler whose class the exception is an instance of runs; an
    exception that no handler matches propagates. *)
Fixpoint dispatch {A : Type} (handlers : list (exc_class * (exception -> result A)))
         (e : exception) : result A :=
  match handlers with
  | [] => Raise e
  | (c, h) :: rest => if isinstance_exc e c then h e else dispatch rest e
  end.

Definition try_except {A : Type} (body : result A)
           (handlers : list (exc_class * (exception -> result A))) : result A :=
  match body with
  | Return a => Return a
  | Raise e => dispatch handlers e
  end.

(** The values [json.loads] builds.  A [float] is kept as the numeral
    that was read: the code stores and forwards floats and never
    computes with them. *)
Inductive value : Type :=
| VNone
| VBool (b : bool)
| VInt (n : Z)
| VFloat (numeral : string)
| VStr (s : string)
| VList (items : list value)
| VDict (entries : list (string * value)).

Definition dict : Type := list (string * value).

(** [type(v).__name__] *)
Definition type_name (v : value) : string :=
  match v with
  | VNone => "NoneType"
  | VBool _ => "bool"
  | VInt _ => "int"
  | VFloat _ => "float"
  | VStr _ => "str"
  | VList _ => "list"
  | VDict _ => "dict"
  end.

(** [isinstance(v, dict)] *)
Definition is_dict (v : value) : bool :=
  match v with VDict _ => true | _ => false end.

(** [isinstance(v, (int, float))]; [bool] is a subclass of [int]. *)
Definition is_int_or_float (v : value) : bool :=
  match v with VInt _ | VFloat _ | VBool _ => true | _ => false end.

(** [d.get(k)]: [None] stands for the [None] that Python returns for a
    missing key, [Some VNone] for a stored [None]; every use site tests
    [isinstance] next and treats the two alike. *)
Fixpoint dict_get (k : string) (d : dict) : option value :=
  match d with
  | [] => None
  | (k', v) :: d' => if String.eqb k k' then Some v else dict_get k d'
  end.

(** [d.get(k, default)] *)
Definition dict_get_default (k : string) (d : dict) (default : value) : value :=
  match dict_get k d with
  | Some v => v
  | None => default
  end.

(** [k in d] *)
Definition dict_contains (k : string) (d : dict) : bool :=
  match dict_get k d with
  | Some _ => true
  | None => false
  end.

(** [d[k] = v] *)
Fixpoint dict_set (k : string) (v : value) (d : dict) : dict :=
  match d with
  | [] => [(k, v)]
  | (k', v') :: d' =>
      if String.eqb k k' then (k', v) :: d' else (k', v') :: dict_set k v d'
  end.

(** [list(d)]: the keys in iteration order. *)
Definition dict_keys (d : dict) : list string := map fst d.

(** [o.items()]: only a [dict] has the method; on the other JSON
    values the attribute lookup raises [AttributeError]. *)
Definition items (o : value) : result dict :=
  match o with
  | VDict d => Return d
  | _ => Raise (new_exc AttributeError
                  ("'" ++ type_name o ++ "' object has no attribute 'items'"))
  end.

(** [o.get]: as [items]. *)
Definition get_method (o : value) : result dict :=
  match o with
  | VDict d => Return d
  | _ => Raise (new_exc AttributeError
                  ("'" ++ type_name o ++ "' object has no attribute 'get'"))
  end.

(** [s.startswith(p)] *)
Definition startswith (s p : string) : bool := String.prefix p s.

(** [str(n)] of an [int]. *)
Definition str_of_Z (n : Z) : string := NilZero.string_of_int (Z.to_int n).

End Py.
Import Py.

Notation "x <- m ;; k" := (bind m (fun x => k))
  (at level 61, m at next level, right associativity).

(* ================================================================== *)
(** * json.loads                                                       *)
(* ================================================================== *)

(** The decoder that [json.loads] runs with its default options, after
    CPython's implementation ([Modules/_json.c]: [scanstring_unicode],
    [_parse_object_unicode], [_parse_array_unicode],
    [scan_once_unicode], [_match_number_unicode]; [json/decoder.py]:
    [JSONDecoder.decode], [JSONDecodeError]; [json/__init__.py]:
    [loads]).  The function names are those of the package's Python
    modules.  Indices are byte positions in the text; the positions an
    error message shows are counted in characters.  Each loop of the
    original is a recursive function on a fuel argument; [loads] gives
    twice the length of the text plus four, which is never used up
    ([loads_total] below).  This is [json.loads] within the limits of
    the interpreter: beyond its remaining recursion depth CPython
    raises [RecursionError], and on an integer literal of more digits
    than [sys.get_int_max_str_digits()] it raises [ValueError].  Both
    limits are state of the interpreter and are not part of [loads];
    what is to hold beyond them is stated for every decoder (see
    [async_get_data_with]). *)
Module Json.
Local Open Scope nat_scope.

Definition DQUOTE : ascii := "034"%char.
Definition BACKSLASH : ascii := "\"%char.

(** The outcome of a scanning function: a value and the index after
    it, [StopIteration(idx)], or [JSONDecodeError(msg, doc, pos)];
    [DepthExceeded] when the fuel is used up. *)
Inductive scan (A : Type) : Type :=
| Scanned (a : A) (end_ : nat)
| StopIteration (idx : nat)
| DecodeError (msg : string) (pos : nat)
| DepthExceeded.
Arguments Scanned {A} a end_.
Arguments StopIteration {A} idx.
Arguments DecodeError {A} msg pos.
Arguments DepthExceeded {A}.

(** [s[n:]] *)
Fixpoint skip (n : nat) (s : string) : string :=
  match n, s with
  | S n', String _ s' => skip n' s'
  | _, _ => s
  end.

(** [s[idx:idx+len] == lit] *)
Definition slice_is (s : string) (idx len : nat) (lit : string) : bool :=
  String.eqb (String.substring idx len s) lit.

Definition is_ws (c : ascii) : bool :=
  match nat_of_ascii c with
  | 32 | 9 | 10 | 13 => true
  | _ => false
  end.

Definition is_digit (c : ascii) : bool :=
  (48 <=? nat_of_ascii c) && (nat_of_ascii c <=? 57).

(** The number of leading characters of [s] that satisfy [p]. *)
Fixpoint span (p : ascii -> bool) (s : string) : nat :=
  match s with
  | String c s' => if p c then S (span p s') else 0
  | EmptyString => 0
  end.

(** [WHITESPACE.match(s, idx).end()] *)
Definition skip_ws (s : string) (idx : nat) : nat :=
  idx + span is_ws (skip idx s).

(** [s[idx:idx+1]], [None] for the empty slice. *)
Definition char_at (s : string) (idx : nat) : option ascii := String.get idx s.

Definition char_is (s : string) (idx : nat) (c : ascii) : bool :=
  match char_at s idx with
  | Some c' => Ascii.eqb c' c
  | None => false
  end.

(** ** Strings *)

(** [STRINGCHUNK.match]: the text up to the first quote, backslash or
    control character, and that character. *)
Fixpoint chunk (s : string) : option (string * ascii) :=
  match s with
  | EmptyString => None
  | String c s' =>
      if Ascii.eqb c DQUOTE || Ascii.eqb c BACKSLASH || (nat_of_ascii c <? 32)
      then Some (EmptyString, c)
      else match chunk s' with
           | Some (content, terminator) => Some (String c content, terminator)
           | None => None
           end
  end.

(** The table [BACKSLASH] of [json/decoder.py]. *)
Definition backslash_table (esc : ascii) : option ascii :=
  match nat_of_ascii esc with
  | 34 => Some DQUOTE
  | 92 => Some BACKSLASH
  | 47 => Some "/"%char
  | 98 => Some (ascii_of_nat 8)
  | 102 => Some (ascii_of_nat 12)
  | 110 => Some (ascii_of_nat 10)
  | 114 => Some (ascii_of_nat 13)
  | 116 => Some (ascii_of_nat 9)
  | _ => None
  end.

Definition hex_digit (c : ascii) : option N :=
  let n := N_of_ascii c in
  (if (48 <=? n) && (n <=? 57) then Some (n - 48)
   else if (97 <=? n) && (n <=? 102) then Some (n - 87)
   else if (65 <=? n) && (n <=? 70) then Some (n - 55)
   else None)%N.

Fixpoint hex_value (acc : N) (s : string) : option N :=
  match s with
  | EmptyString => Some acc
  | String c s' =>
      match hex_digit c with
      | Some d => hex_value (16 * acc + d)%N s'
      | None => None
      end
  end.

(** [chr(uni)], in UTF-8. *)
Definition chr (uni : N) : string :=
  let b (n : N) := ascii_of_N n in
  let cont (n : N) := b (128 + n mod 64)%N in
  (if uni <? 128 then String (b uni) EmptyString
   else if uni <? 2048 then
     String (b (192 + uni / 64)) (String (cont uni) EmptyString)
   else if uni <? 65536 then
     String (b (224 + uni / 4096))
       (String (cont (uni / 64)) (String (cont uni) EmptyString))
   else
     String (b (240 + uni / 262144))
       (String (cont (uni / 4096))
          (String (cont (uni / 64)) (String (cont uni) EmptyString))))%N.

Definition is_continuation (c : ascii) : bool :=
  (128 <=? nat_of_ascii c) && (nat_of_ascii c <? 192).

(** Four hexadecimal digits at [idx]. *)
Definition hex4 (s : string) (idx : nat) : option N :=
  let esc := String.substring idx 4 s in
  if String.length esc =? 4 then hex_value 0%N esc else None.

Definition is_high_surrogate (c : N) : bool := ((55296 <=? c) && (c <=? 56319))%N.
Definition is_low_surrogate (c : N) : bool := ((56320 <=? c) && (c <=? 57343))%N.
Definition join_surrogates (c c2 : N) : N :=
  (65536 + N.lor (N.shiftl (N.land c 1023) 10) (N.land c2 1023))%N.

(** [scanstring(s, end)] with [strict=True]: the loop over chunks.
    [begin] is the index of the opening quote, [acc] the characters
    read so far. *)
Fixpoint scanstring_loop (fuel : nat) (s : string) (begin end_ : nat) (acc : string)
  : scan string :=
  match fuel with
  | O => DepthExceeded
  | S fuel' =>
      match chunk (skip end_ s) with
      | None => DecodeError "Unterminated string starting at" begin
      | Some (content, terminator) =>
          let next := end_ + String.length content in
          let acc := (acc ++ content)%string in
          if Ascii.eqb terminator DQUOTE then Scanned acc (next + 1)
          else if negb (Ascii.eqb terminator BACKSLASH) then
            DecodeError "Invalid control character at" next
          else
            let next := next + 1 in
            match char_at s next with
            | None => DecodeError "Unterminated string starting at" begin
            | Some c =>
                if negb (Ascii.eqb c "u"%char) then
                  match backslash_table c with
                  | None => DecodeError "Invalid \escape" (next - 1)
                  | Some char =>
                      scanstring_loop fuel' s begin (next + 1)
                        (acc ++ String char EmptyString)
                  end
                else
                  let next := next + 1 in
                  let end_ := next + 4 in
                  if String.length s <=? end_
                  then DecodeError "Invalid \uXXXX escape" (next - 1)
                  else
                    match hex4 s next with
                    | None => DecodeError "Invalid \uXXXX escape" (end_ - 5)
                    | Some c =>
                        if is_high_surrogate c && (end_ + 6 <? String.length s)
                           && char_is s end_ BACKSLASH && char_is s (end_ + 1) "u"%char
                        then
                          match hex4 s (end_ + 2) with
                          | None => DecodeError "Invalid \uXXXX escape" (end_ + 1)
                          | Some c2 =>
                              if is_low_surrogate c2
                              then scanstring_loop fuel' s begin (end_ + 6)
                                     (acc ++ chr (join_surrogates c c2))
                              else scanstring_loop fuel' s begin end_ (acc ++ chr c)
                          end
                        else scanstring_loop fuel' s begin end_ (acc ++ chr c)
                    end
            end
      end
  end.

Definition scanstring (fuel : nat) (s : string) (end_ : nat) : scan string :=
  scanstring_loop fuel s (end_ - 1) end_ EmptyString.

(** ** Numbers *)

(** [NUMBER_RE.match(s, idx)]: the three groups [integer], [frac],
    [exp] (empty when a group did not take part), or [None]. *)
Definition match_number (s : string) (idx : nat)
  : option (string * string * string) :=
  let sign := if char_is s idx "-"%char then 1 else 0 in
  let digits := span is_digit (skip (idx + sign) s) in
  let int_len :=
    if char_is s (idx + sign) "0"%char then 1 else digits in
  if int_len =? 0 then None
  else
    let integer := String.substring idx (sign + int_len) s in
    let p := idx + sign + int_len in
    let frac_digits := span is_digit (skip (p + 1) s) in
    let frac :=
      if char_is s p "."%char && negb (frac_digits =? 0)
      then String.substring p (1 + frac_digits) s else EmptyString in
    let q := p + String.length frac in
    let exp_sign :=
      if char_is s (q + 1) "-"%char || char_is s (q + 1) "+"%char then 1 else 0 in
    let exp_digits := span is_digit (skip (q + 1 + exp_sign) s) in
    let exp :=
      if (char_is s q "e"%char || char_is s q "E"%char) && negb (exp_digits =? 0)
      then String.substring q (1 + exp_sign + exp_digits) s else EmptyString in
    Some (integer, frac, exp).

(** [int(integer)] of a numeral [-?[0-9]+]. *)
Fixpoint digits_value (acc : Z) (s : string) : Z :=
  match s with
  | EmptyString => acc
  | String c s' => digits_value (10 * acc + Z.of_nat (nat_of_ascii c - 48))%Z s'
  end.

Definition parse_int (integer : string) : Z :=
  match integer with
  | String c rest =>
      if Ascii.eqb c "-"%char then (- digits_value 0 rest)%Z
      else digits_value 0%Z integer
  | EmptyString => 0%Z
  end.

(** ** Objects and arrays *)

Section Containers.

(** [JSONObject] and [JSONArray] receive [scan_once] as an argument. *)
Variable scan_once : string -> nat -> scan value.

(** [dict(pairs)]: a later pair with the same key replaces the value. *)
Definition dict_of_pairs (pairs : list (string * value)) : dict :=
  fold_left (fun d kv => dict_set (fst kv) (snd kv) d) pairs [].

(** The [while True] loop of [JSONObject]; [end_] is the index after
    the opening quote of the next key. *)
Fixpoint object_loop (fuel : nat) (s : string) (end_ : nat)
         (pairs : list (string * value)) : scan value :=
  match fuel with
  | O => DepthExceeded
  | S fuel' =>
      match scanstring fuel' s end_ with
      | Scanned key end_ =>
          let end_ := skip_ws s end_ in
          if negb (char_is s end_ ":"%char)
          then DecodeError "Expecting ':' delimiter" end_
          else
            let end_ := skip_ws s (end_ + 1) in
            match scan_once s end_ with
            | Scanned v end_ =>
                let pairs := pairs ++ [(key, v)] in
                let end_ := skip_ws s end_ in
                if char_is s end_ "}"%char
                then Scanned (VDict (dict_of_pairs pairs)) (end_ + 1)
                else if negb (char_is s end_ ","%char)
                then DecodeError "Expecting ',' delimiter" end_
                else
                  let end_ := skip_ws s (end_ + 1) in
                  if negb (char_is s end_ DQUOTE)
                  then DecodeError
                         "Expecting property name enclosed in double quotes" end_
                  else object_loop fuel' s (end_ + 1) pairs
            | StopIteration idx => DecodeError "Expecting value" idx
            | DecodeError msg pos => DecodeError msg pos
            | DepthExceeded => DepthExceeded
            end
      | StopIteration idx => StopIteration idx
      | DecodeError msg pos => DecodeError msg pos
      | DepthExceeded => DepthExceeded
      end
  end.

(** [JSONObject((s, end), ...)]; [end_] is the index after the brace. *)
Definition JSONObject (fuel : nat) (s : string) (end_ : nat) : scan value :=
  let end_ := skip_ws s end_ in
  if char_is s end_ "}"%char then Scanned (VDict []) (end_ + 1)
  else if negb (char_is s end_ DQUOTE)
  then DecodeError "Expecting property name enclosed in double quotes" end_
  else object_loop fuel s (end_ + 1) [].

(** The [while True] loop of [JSONArray]. *)
Fixpoint array_loop (fuel : nat) (s : string) (end_ : nat) (values : list value)
  : scan value :=
  match fuel with
  | O => DepthExceeded
  | S fuel' =>
      match scan_once s end_ with
      | Scanned v end_ =>
          let values := values ++ [v] in
          let end_ := skip_ws s end_ in
          if char_is s end_ "]"%char then Scanned (VList values) (end_ + 1)
          else if negb (char_is s end_ ","%char)
          then DecodeError "Expecting ',' delimiter" end_
          else array_loop fuel' s (skip_ws s (end_ + 1)) values
      | StopIteration idx => DecodeError "Expecting value" idx
      | DecodeError msg pos => DecodeError msg pos
      | DepthExceeded => DepthExceeded
      end
  end.

(** [JSONArray((s, end), scan_once)]; [end_] is the index after the
    bracket. *)
Definition JSONArray (fuel : nat) (s : string) (end_ : nat) : scan value :=
  let end_ := skip_ws s end_ in
  if char_is s end_ "]"%char then Scanned (VList []) (end_ + 1)
  else array_loop fuel s end_ [].

End Containers.

(** ** The scanner *)

(** [_scan_once(string, idx)] of [py_make_scanner]. *)
Fixpoint scan_once (fuel : nat) (s : string) (idx : nat) {struct fuel} : scan value :=
  match fuel with
  | O => DepthExceeded
  | S fuel' =>
      match char_at s idx with
      | None => StopIteration idx
      | Some nextchar =>
          if Ascii.eqb nextchar DQUOTE then
            match scanstring fuel' s (idx + 1) with
            | Scanned str end_ => Scanned (VStr str) end_
            | StopIteration i => StopIteration i
            | DecodeError msg pos => DecodeError msg pos
            | DepthExceeded => DepthExceeded
            end
          else if Ascii.eqb nextchar "{"%char then
            JSONObject (scan_once fuel') fuel' s (idx + 1)
          else if Ascii.eqb nextchar "["%char then
            JSONArray (scan_once fuel') fuel' s (idx + 1)
          else if slice_is s idx 4 "null" then Scanned VNone (idx + 4)
          else if slice_is s idx 4 "true" then Scanned (VBool true) (idx + 4)
          else if slice_is s idx 5 "false" then Scanned (VBool false) (idx + 5)
          else
            match match_number s idx with
            | Some (integer, frac, exp) =>
                let end_ := idx + String.length integer + String.length frac
                            + String.length exp in
                if (String.length frac =? 0) && (String.length exp =? 0)
                then Scanned (VInt (parse_int integer)) end_
                else Scanned (VFloat (integer ++ frac ++ exp)) end_
            | None =>
                if slice_is s idx 3 "NaN" then Scanned (VFloat "NaN") (idx + 3)
                else if slice_is s idx 8 "Infinity"
                then Scanned (VFloat "Infinity") (idx + 8)
                else if slice_is s idx 9 "-Infinity"
                then Scanned (VFloat "-Infinity") (idx + 9)
                else StopIteration idx
            end
      end
  end.

(** ** Errors and the entry point *)

Definition str_of_nat (n : nat) : string := NilZero.string_of_uint (Nat.to_uint n).

(** Line, column and character index of byte position [pos] in [doc],
    counted in characters: [lineno = doc.count('\n', 0, pos) + 1],
    [colno = pos - doc.rindex('\n', 0, pos)] (or [pos + 1]). *)
Fixpoint locate (doc : string) (pos : nat) (line col chars : nat) : nat * nat * nat :=
  match pos, doc with
  | S pos', String c doc' =>
      if nat_of_ascii c =? 10 then locate doc' pos' (line + 1) 1 (chars + 1)
      else if is_continuation c then locate doc' pos' line col chars
      else locate doc' pos' line (col + 1) (chars + 1)
  | _, _ => (line, col, chars)
  end.

(** [str(JSONDecodeError(msg, doc, pos))] *)
Definition errmsg (msg doc : string) (pos : nat) : string :=
  let '(lineno, colno, char) := locate doc pos 1 1 0 in
  (msg ++ ": line " ++ str_of_nat lineno ++ " column " ++ str_of_nat colno
       ++ " (char " ++ str_of_nat char ++ ")")%string.

Definition decode_error (msg doc : string) (pos : nat) : exception :=
  new_exc JSONDecodeError (errmsg msg doc pos).

(** U+FEFF in UTF-8. *)
Definition BOM : string :=
  String (ascii_of_nat 239) (String (ascii_of_nat 187) (String (ascii_of_nat 191) EmptyString)).

(** [json.loads(s)] for a [str]. *)
Definition loads (s : string) : result value :=
  if startswith s BOM
  then Raise (decode_error "Unexpected UTF-8 BOM (decode using utf-8-sig)" s 0)
  else
    match scan_once (2 * String.length s + 4) s (skip_ws s 0) with
    | Scanned obj end_ =>
        let end_ := skip_ws s end_ in
        if negb (end_ =? String.length s)
        then Raise (decode_error "Extra data" s end_)
        else Return obj
    | StopIteration idx => Raise (decode_error "Expecting value" s idx)
    | DecodeError msg pos => Raise (decode_error msg s pos)
    | DepthExceeded =>
        Raise (new_exc RecursionError "maximum recursion depth exceeded")
    end.

End Json.


(* ================================================================== *)
(** * aiohttp: what one GET can do                                     *)
(* ================================================================== *)

Module Aiohttp.

(** Reading the body with [await response.text()]: the read or the
    decoding raises, or the text arrives. *)
Inductive body : Type :=
| TextRaises (e : exception)
| Text (text : string).

(** One [session.get(url, allow_redirects=False)] under
    [async_timeout.timeout(10)], as the client sees it: the deadline
    passes before the body is read, the request raises, or the status
    line and headers of a response arrive.  With
    [allow_redirects=False] a 3xx response is handed to the caller as
    it is. *)
Inductive exchange : Type :=
| TimesOut
| GetRaises (e : exception)
| Response (status : Z) (content : body).

(** [ClientResponse.ok]: [400 > self.status]. *)
Definition ok (status : Z) : bool := (status <? 400)%Z.

(** [ClientResponse.raise_for_status()]: raises [ClientResponseError]
    with [status=self.status] when the response is not [ok].  (Of the
    raised error the caller reads [status]; [str(err)] goes to the log
    only.) *)
Definition raise_for_status (status : Z) : result unit :=
  if ok status then Return tt
  else Raise (Exc ClientResponseError (str_of_Z status) status).

(** The response object that the [async with] binds: status and body. *)
Definition session_get (net : exchange) : result (Z * body) :=
  match net with
  | TimesOut => Raise (new_exc TimeoutError EmptyString)
  | GetRaises e => Raise e
  | Response status content => Return (status, content)
  end.

(** [await response.text()] *)
Definition response_text (content : body) : result string :=
  match content with
  | TextRaises e => Raise e
  | Text text => Return text
  end.

End Aiohttp.
Import Aiohttp.

(* ================================================================== *)
(** * api.py                                                           *)
(* ================================================================== *)

Module Api.

(** [GaiaStationApiClient]; the [session] is the host's, and [exchange]
    stands for what it does on a call. *)
Record GaiaStationApiClient : Type := {
  host : string;
  _base_url : string
}.

(** [__init__(self, host, session)] *)
Definition new_client (host : string) : GaiaStationApiClient :=
  {| host := host; _base_url := "http://" ++ host |}.

(** The body of [async_get_data(self, endpoint)], with what the call
    [json.loads(text)] does as the parameter [decode].  Besides
    [JSONDecodeError], CPython's decoder raises [RecursionError] on a
    text nested deeper than the interpreter's remaining recursion depth
    and [ValueError] on an integer literal with more digits than
    [sys.get_int_max_str_digits()]; both limits belong to the state of
    the interpreter.  What is stated for every [decode] holds whatever
    those limits are. *)
Definition async_get_data_with (decode : string -> result value)
           (self : GaiaStationApiClient) (endpoint : string)
           (net : exchange) : result dict :=
  let url := (_base_url self ++ endpoint)%string in
  try_except
    (response <- session_get net ;;
     _ <- raise_for_status (fst response) ;;
     text <- response_text (snd response) ;;
     try_except
       (data <- decode text ;;
        match data with
        | VDict d => Return d
        | _ => Raise (new_exc ValueError
                        ("Expected dict, got <class '" ++ type_name data ++ "'>"))
        end)
       [(JSONDecodeError,
         fun err => Raise (new_exc GaiaStationApiError
                             ("Invalid JSON response from " ++ url ++ ": "
                              ++ exc_str err)))])
    [(TimeoutError,
      fun err => Raise (new_exc GaiaStationTimeoutError
                          ("Timeout connecting to " ++ host self)));
     (ClientConnectionError,
      fun err => Raise (new_exc GaiaStationConnectionError
                          ("Cannot connect to " ++ host self ++ ": " ++ exc_str err)));
     (ClientResponseError,
      fun err => Raise (new_exc GaiaStationApiError
                          ("HTTP " ++ str_of_Z (exc_status err)
                           ++ " error from " ++ url)));
     (ClientError,
      fun err => Raise (new_exc GaiaStationConnectionError
                          ("HTTP error connecting to " ++ host self ++ ": "
                           ++ exc_str err)))].

(** [async_get_data(self, endpoint)], with the decoder [Json.loads]:
    [json.loads] within the interpreter's limits. *)
Definition async_get_data : GaiaStationApiClient -> string -> exchange -> result dict :=
  async_get_data_with Json.loads.

(** [async_get_realtime_data(self)] *)
Definition async_get_realtime_data_with (decode : string -> result value)
           (self : GaiaStationApiClient) (net : exchange) : result dict :=
  async_get_data_with decode self "/realtime/" net.

Definition async_get_realtime_data : GaiaStationApiClient -> exchange -> result dict :=
  async_get_realtime_data_with Json.loads.

(** [async_get_system_info(self)] *)
Definition async_get_system_info (self : GaiaStationApiClient) (net : exchange)
  : result dict :=
  async_get_data self "/realtime/" net.

End Api.
Import Api.

(* ================================================================== *)
(** * coordinator.py                                                   *)
(* ================================================================== *)

Module Coordinator.

(** The tuple every inner [for stat_key in (...)] loop runs over. *)
Definition STAT_KEYS : list string :=
  ["latest"; "mean"; "median"; "min"; "max"; "stddev"; "samples"].

(** [for particle_type in ("pm25", "pm1", "pm10")] *)
Definition PARTICLE_TYPES : list string := ["pm25"; "pm1"; "pm10"].

(** The inner loop, which the source writes out four times:
[[
    for stat_key in ("latest", ..., "samples"):
        if stat_key in block:
            flat[f"{prefix}_{stat_key}"] = block[stat_key]
]] *)
Definition emit_stats (prefix : string) (block : dict) (flat : dict) : dict :=
  fold_left
    (fun flat stat_key =>
       match dict_get stat_key block with
       | Some v => dict_set (prefix ++ "_" ++ stat_key) v flat
       | None => flat
       end)
    STAT_KEYS flat.

(** The loop over the particle channels of one group, written out twice
    in the source (once per sensor group with [head = group_key], once
    for the rolling aggregate with [head = "rolling"]):
[[
    for particle_type in ("pm25", "pm1", "pm10"):
        particle_data = group.get(particle_type)
        if not isinstance(particle_data, dict):
            continue
        prefix = f"{head}_{particle_type}"
        for stat_key in ...
]] *)
Definition emit_particles (head : string) (group : dict) (flat : dict) : dict :=
  fold_left
    (fun flat particle_type =>
       match dict_get particle_type group with
       | Some (VDict particle_data) =>
           emit_stats (head ++ "_" ++ particle_type) particle_data flat
       | _ => flat
       end)
    PARTICLE_TYPES flat.

(** [for group_key, group_data in pms.items(): ...] *)
Definition emit_groups (pms : dict) (flat : dict) : dict :=
  fold_left
    (fun flat (item : string * value) =>
       let (group_key, group_data) := item in
       if String.eqb group_key "historic" || String.eqb group_key "rolling"
       then flat
       else match group_data with
            | VDict group => emit_particles group_key group flat
            | _ => flat
            end)
    pms flat.

(** The [rolling] aggregate under [pms]. *)
Definition emit_rolling (pms : dict) (flat : dict) : dict :=
  match dict_get_default "rolling" pms (VDict []) with
  | VDict rolling_pms => emit_particles "rolling" rolling_pms flat
  | _ => flat
  end.

(** The [co2] block. *)
Definition emit_co2 (data : dict) (flat : dict) : dict :=
  match dict_get_default "co2" data (VDict []) with
  | VDict co2 =>
      match dict_get "rolling" co2 with
      | Some (VDict co2_rolling) => emit_stats "co2" co2_rolling flat
      | _ => flat
      end
  | _ => flat
  end.

(** [for met_type in ("temperature", "humidity")] *)
Definition MET_TYPES : list string := ["temperature"; "humidity"].

(** The [met] block. *)
Definition emit_met (data : dict) (flat : dict) : dict :=
  match dict_get_default "met" data (VDict []) with
  | VDict met =>
      fold_left
        (fun flat met_type =>
           match dict_get met_type met with
           | Some (VDict met_data) => emit_stats met_type met_data flat
           | Some met_data =>
               if is_int_or_float met_data
               then dict_set (met_type ++ "_latest") met_data flat
               else flat
           | None => flat
           end)
        MET_TYPES flat
  | _ => flat
  end.

(** [for key in ("boot", "vpwr", "heap", "alive", "time")] *)
Definition SYS_KEYS : list string := ["boot"; "vpwr"; "heap"; "alive"; "time"].

(** The [sys] block. *)
Definition emit_sys (data : dict) (flat : dict) : dict :=
  match dict_get_default "sys" data (VDict []) with
  | VDict sys_data =>
      fold_left
        (fun flat key =>
           match dict_get key sys_data with
           | Some v => dict_set ("sys_" ++ key) v flat
           | None => flat
           end)
        SYS_KEYS flat
  | _ => flat
  end.

(** The coordinator object: the client it polls with and the raw
    payload of the last successful fetch.  ([data], the published
    FlatMap, is an attribute of the host's [DataUpdateCoordinator].) *)
Record GaiaStationDataUpdateCoordinator : Type := {
  client : GaiaStationApiClient;
  raw_data : dict
}.

(** [GaiaStationDataUpdateCoordinator(hass, client)] *)
Definition new_coordinator (client : GaiaStationApiClient)
  : GaiaStationDataUpdateCoordinator :=
  {| client := client; raw_data := [] |}.

(** [_flatten_data(self, data)].  [pms = data.get("pms", {})] is used
    with [pms.items()] before any [isinstance] test, so a [pms] that is
    no dict raises there; every later block is guarded.  A method
    returns its outcome and the object as it leaves it. *)
Definition _flatten_data (self : GaiaStationDataUpdateCoordinator) (data : dict)
  : result dict * GaiaStationDataUpdateCoordinator :=
  let flat : dict := [] in
  let pms := dict_get_default "pms" data (VDict []) in
  (pms_items <- items pms ;;
   let flat := emit_groups pms_items flat in
   pms_d <- get_method pms ;;
   let flat := emit_rolling pms_d flat in
   let flat := emit_co2 data flat in
   let flat := emit_met data flat in
   let flat := emit_sys data flat in
   Return flat,
   self).

(** [_async_update_data(self)], against what the network does on this
    poll and what [json.loads] does ([decode], as in
    [async_get_data_with]).  The assignment to [self.raw_data] takes place when the fetch
    returns, before the transform runs; the one [except] clause covers
    both statements. *)
Definition _async_update_data_with (decode : string -> result value)
           (self : GaiaStationDataUpdateCoordinator) (net : exchange)
  : result dict * GaiaStationDataUpdateCoordinator :=
  let handlers : list (exc_class * (exception -> result dict)) :=
    [(GaiaStationApiError,
      fun err => Raise (new_exc UpdateFailed
                          ("Error communicating with API: " ++ exc_str err)))] in
  match async_get_realtime_data_with decode (client self) net with
  | Raise e => (dispatch handlers e, self)
  | Return payload =>
      let self := {| client := client self; raw_data := payload |} in
      let (outcome, self) := _flatten_data self (raw_data self) in
      (try_except outcome handlers, self)
  end.

(** [_async_update_data(self)], with the decoder [Json.loads]. *)
Definition _async_update_data
  : GaiaStationDataUpdateCoordinator -> exchange
    -> result dict * GaiaStationDataUpdateCoordinator :=
  _async_update_data_with Json.loads.

End Coordinator.
Import Coordinator.


(* ================================================================== *)
(** * sensor.py                                                        *)
(* ================================================================== *)

Module Sensor.

(** The Home Assistant constants the descriptions use, by name. *)
Inductive unit_of_measurement : Type :=
| CONCENTRATION_MICROGRAMS_PER_CUBIC_METER
| CONCENTRATION_PARTS_PER_MILLION
| UnitOfTemperature_CELSIUS
| PERCENTAGE
| UnitOfElectricPotential_MILLIVOLT
| UnitOfTime_SECONDS
| unit_literal (symbol : string).

Inductive SensorDeviceClass : Type :=
| PM25 | PM1 | PM10 | CO2 | TEMPERATURE | HUMIDITY | VOLTAGE | DATA_SIZE | DURATION.

Inductive SensorStateClass : Type := MEASUREMENT | TOTAL_INCREASING.

Inductive EntityCategory : Type := DIAGNOSTIC.

(** [GaiaStationSensorEntityDescription]: the fields of
    [SensorEntityDescription] that the module sets, and [value_fn].
    [entity_registry_enabled_default] is [True] and [entity_category]
    is [None] where a description leaves them out. *)
Record GaiaStationSensorEntityDescription : Type := Description {
  key : string;
  name : string;
  native_unit_of_measurement : option unit_of_measurement;
  device_class : option SensorDeviceClass;
  state_class : option SensorStateClass;
  value_fn : dict -> option value;
  icon : string;
  entity_registry_enabled_default : bool;
  entity_category : option EntityCategory
}.

(** [lambda data: data.get(k)] *)
Definition getter (k : string) : dict -> option value := fun data => dict_get k data.

Definition ROLLING_PM_SENSORS : list GaiaStationSensorEntityDescription := [
  Description "rolling_pm25_latest" "PM2.5 Rolling"
    (Some CONCENTRATION_MICROGRAMS_PER_CUBIC_METER) (Some PM25) (Some MEASUREMENT)
    (getter "rolling_pm25_latest") "mdi:blur" true None;
  Description "rolling_pm25_mean" "PM2.5 Rolling Mean"
    (Some CONCENTRATION_MICROGRAMS_PER_CUBIC_METER) (Some PM25) (Some MEASUREMENT)
    (getter "rolling_pm25_mean") "mdi:blur" true None;
  Description "rolling_pm1_latest" "PM1.0 Rolling"
    (Some CONCENTRATION_MICROGRAMS_PER_CUBIC_METER) (Some PM1) (Some MEASUREMENT)
    (getter "rolling_pm1_latest") "mdi:blur-linear" true None;
  Description "rolling_pm1_mean" "PM1.0 Rolling Mean"
    (Some CONCENTRATION_MICROGRAMS_PER_CUBIC_METER) (Some PM1) (Some MEASUREMENT)
    (getter "rolling_pm1_mean") "mdi:blur-linear" true None;
  Description "rolling_pm10_latest" "PM10 Rolling"
    (Some CONCENTRATION_MICROGRAMS_PER_CUBIC_METER) (Some PM10) (Some MEASUREMENT)
    (getter "rolling_pm10_latest") "mdi:blur-radial" true None;
  Description "rolling_pm10_mean" "PM10 Rolling Mean"
    (Some CONCENTRATION_MICROGRAMS_PER_CUBIC_METER) (Some PM10) (Some MEASUREMENT)
    (getter "rolling_pm10_mean") "mdi:blur-radial" true None
].

Definition CO2_SENSORS : list GaiaStationSensorEntityDescription := [
  Description "co2_latest" "CO₂"
    (Some CONCENTRATION_PARTS_PER_MILLION) (Some CO2) (Some MEASUREMENT)
    (getter "co2_latest") "mdi:molecule-co2" true None;
  Description "co2_mean" "CO₂ Mean"
    (Some CONCENTRATION_PARTS_PER_MILLION) (Some CO2) (Some MEASUREMENT)
    (getter "co2_mean") "mdi:molecule-co2" true None;
  Description "co2_min" "CO₂ Min"
    (Some CONCENTRATION_PARTS_PER_MILLION) (Some CO2) (Some MEASUREMENT)
    (getter "co2_min") "mdi:molecule-co2" true None;
  Description "co2_max" "CO₂ Max"
    (Some CONCENTRATION_PARTS_PER_MILLION) (Some CO2) (Some MEASUREMENT)
    (getter "co2_max") "mdi:molecule-co2" true None;
  Description "co2_median" "CO₂ Median"
    (Some CONCENTRATION_PARTS_PER_MILLION) (Some CO2) (Some MEASUREMENT)
    (getter "co2_median") "mdi:molecule-co2" true None
].

Definition MET_SENSORS : list GaiaStationSensorEntityDescription := [
  Description "temperature_latest" "Temperature"
    (Some UnitOfTemperature_CELSIUS) (Some TEMPERATURE) (Some MEASUREMENT)
    (getter "temperature_latest") "mdi:thermometer" true None;
  Description "humidity_latest" "Humidity"
    (Some PERCENTAGE) (Some HUMIDITY) (Some MEASUREMENT)
    (getter "humidity_latest") "mdi:water-percent" true None
].

Definition SYSTEM_SENSORS : list GaiaStationSensorEntityDescription := [
  Description "sys_vpwr" "Supply Voltage"
    (Some UnitOfElectricPotential_MILLIVOLT) (Some VOLTAGE) (Some MEASUREMENT)
    (getter "sys_vpwr") "mdi:flash" false (Some DIAGNOSTIC);
  Description "sys_heap" "Free Heap Memory"
    (Some (unit_literal "B")) (Some DATA_SIZE) (Some MEASUREMENT)
    (getter "sys_heap") "mdi:memory" false (Some DIAGNOSTIC);
  Description "sys_alive" "Uptime"
    (Some UnitOfTime_SECONDS) (Some DURATION) (Some TOTAL_INCREASING)
    (getter "sys_alive") "mdi:clock-outline" false (Some DIAGNOSTIC);
  Description "sys_boot" "Boot Count"
    None None (Some TOTAL_INCREASING)
    (getter "sys_boot") "mdi:restart" false (Some DIAGNOSTIC)
].

(** All static sensor descriptions combined. *)
Definition ALL_STATIC_SENSORS : list GaiaStationSensorEntityDescription :=
  ROLLING_PM_SENSORS ++ CO2_SENSORS ++ MET_SENSORS ++ SYSTEM_SENSORS.

(** ** Dynamic discovery *)

(** [for prefix_candidate in ("pms1", "pms2", "pms3")] *)
Definition PREFIX_CANDIDATES : list string := ["pms1"; "pms2"; "pms3"].

(** [discovered_groups.add(x)] on a set held as a list without
    repetition. *)
Definition set_add (x : string) (s : list string) : list string :=
  if existsb (String.eqb x) s then s else s ++ [x].

(** The scan of the flattened keys:
[[
    for key in data:
        for prefix_candidate in ("pms1", "pms2", "pms3"):
            if key.startswith(f"{prefix_candidate}_"):
                discovered_groups.add(prefix_candidate)
]] *)
Definition discover_groups (data : dict) : list string :=
  fold_left
    (fun discovered key =>
       fold_left
         (fun discovered prefix_candidate =>
            if startswith key (prefix_candidate ++ "_")
            then set_add prefix_candidate discovered
            else discovered)
         PREFIX_CANDIDATES discovered)
    (dict_keys data) [].

(** [sorted(...)] on strings: ascending, by insertion. *)
Fixpoint insert_sorted (x : string) (l : list string) : list string :=
  match l with
  | [] => [x]
  | y :: l' => if String.leb x y then x :: l else y :: insert_sorted x l'
  end.

Definition sorted (l : list string) : list string :=
  fold_right insert_sorted [] l.

(** [s.upper()] on ASCII letters (the groups are [pms1] to [pms3]). *)
Definition upper_char (c : ascii) : ascii :=
  let n := nat_of_ascii c in
  if (97 <=? n)%nat && (n <=? 122)%nat then ascii_of_nat (n - 32) else c.

Fixpoint upper (s : string) : string :=
  match s with
  | EmptyString => EmptyString
  | String c s' => String (upper_char c) (upper s')
  end.

(** [pm_configs] *)
Definition pm_configs : list (string * string * SensorDeviceClass * string) := [
  ("pm25", "PM2.5", PM25, "mdi:blur");
  ("pm1", "PM1.0", PM1, "mdi:blur-linear");
  ("pm10", "PM10", PM10, "mdi:blur-radial")
].

(** The five [if <stat>_key in data: sensors.append(...)] blocks of the
    loop body, in source order: the stat field of the key and what the
    description's name adds to [f"{group_label} {pm_label}"]. *)
Definition stat_variants : list (string * string) := [
  ("latest", EmptyString);
  ("mean", " Mean");
  ("min", " Min");
  ("max", " Max");
  ("median", " Median")
].

(** One of those blocks. *)
Definition dynamic_description (group : string)
           (config : string * string * SensorDeviceClass * string)
           (variant : string * string) : GaiaStationSensorEntityDescription :=
  let '(pm_key, pm_label, pm_class, pm_icon) := config in
  let (stat, suffix) := variant in
  let group_label := upper group in
  let stat_key := (group ++ "_" ++ pm_key ++ "_" ++ stat)%string in
  Description stat_key (group_label ++ " " ++ pm_label ++ suffix)
    (Some CONCENTRATION_MICROGRAMS_PER_CUBIC_METER) (Some pm_class)
    (Some MEASUREMENT) (getter stat_key) pm_icon true None.

(** The descriptions appended for one group and one particle channel. *)
Definition channel_sensors (data : dict) (group : string)
           (config : string * string * SensorDeviceClass * string)
  : list GaiaStationSensorEntityDescription :=
  flat_map
    (fun variant =>
       let d := dynamic_description group config variant in
       if dict_contains (key d) data then [d] else [])
    stat_variants.

(** [_build_dynamic_pms_sensors(data)] *)
Definition _build_dynamic_pms_sensors (data : dict)
  : list GaiaStationSensorEntityDescription :=
  flat_map
    (fun group => flat_map (channel_sensors data group) pm_configs)
    (sorted (discover_groups data)).

(** ** Entities *)

(** [ConfigEntry], as far as the module reads it. *)
Record ConfigEntry : Type := {
  entry_id : string;
  title : string
}.

(** [_attr_device_info] *)
Record DeviceInfo : Type := {
  identifiers : list (string * string);
  device_name : string;
  manufacturer : string;
  model : string
}.

(** [DOMAIN] of [const.py] *)
Definition DOMAIN : string := "gaia_station".

(** [GaiaStationSensor]; the coordinator it refers to is the one of the
    entry. *)
Record GaiaStationSensor : Type := {
  entity_description : GaiaStationSensorEntityDescription;
  _attr_unique_id : string;
  _attr_device_info : DeviceInfo
}.

(** [GaiaStationSensor(coordinator, description, entry)] *)
Definition new_sensor (description : GaiaStationSensorEntityDescription)
           (entry : ConfigEntry) : GaiaStationSensor :=
  {| entity_description := description;
     _attr_unique_id := entry_id entry ++ "_" ++ key description;
     _attr_device_info :=
       {| identifiers := [(DOMAIN, entry_id entry)];
          device_name := title entry;
          manufacturer := "AQICN";
          model := "GAIA Station" |} |}.

(** [native_value]: [coordinator_data] is [coordinator.data]. *)
Definition native_value (self : GaiaStationSensor) (coordinator_data : option dict)
  : option value :=
  match coordinator_data with
  | None => None
  | Some data => value_fn (entity_description self) data
  end.

(** [coordinator.data or {}] *)
Definition data_or_empty (coordinator_data : option dict) : dict :=
  match coordinator_data with
  | Some (item :: rest) => item :: rest
  | _ => []
  end.

(** [async_setup_entry(hass, entry, async_add_entities)]: the list
    handed to [async_add_entities]. *)
Definition async_setup_entry (coordinator_data : option dict) (entry : ConfigEntry)
  : list GaiaStationSensor :=
  let data := data_or_empty coordinator_data in
  let entities :=
    flat_map
      (fun description =>
         if dict_contains (key description) data
         then [new_sensor description entry] else [])
      ALL_STATIC_SENSORS in
  let dynamic_pms := _build_dynamic_pms_sensors data in
  entities ++ map (fun description => new_sensor description entry) dynamic_pms.

End Sensor.
Import Sensor.

(* ================================================================== *)
(** * Vocabulary of the statements                                     *)
(* ================================================================== *)

(** A scanning outcome that is sound for the fuel accounting: the fuel
    was not used up, and a returned index lies after the start and
    within the text. *)
Definition progress {A : Type} (s : string) (idx : nat) (r : Json.scan A) : Prop :=
  match r with
  | Json.Scanned _ e => (idx < e <= String.length s)%nat
  | Json.DepthExceeded => False
  | _ => True
  end.

(** A conditional write loop, the shape of every emitting loop: for
    each [k] of [keys] that [src] has, [flat[name k] = src[k]]. *)
Definition write_loop (name : string -> string) (src : dict) (keys : list string)
           (flat : dict) : dict :=
  fold_left
    (fun flat k =>
       match dict_get k src with
       | Some v => dict_set (name k) v flat
       | None => flat
       end)
    keys flat.

(** Case analysis on membership in a list that is written out. *)
Ltac in_cases H :=
  repeat (destruct H as [H|H]; [try subst|]); try destruct H.

(** A text with quotation marks, built without writing one. *)
Definition quoted (s : string) : string :=
  String Json.DQUOTE (s ++ String Json.DQUOTE EmptyString).


(** A coordinator after a successful poll. *)
Definition polled_coordinator : GaiaStationDataUpdateCoordinator :=
  {| client := new_client "gaia.local";
     raw_data := [("sys", VDict [("boot", VInt 3)])] |}.

(** A key of the map starts with [group_]. *)
Definition group_present (data : dict) (group : string) : bool :=
  existsb (fun k => startswith k (group ++ "_")) (dict_keys data).

(** The fifteen descriptions a group can give, in the order in which
    the loops reach them. *)
Definition group_descriptions (group : string)
  : list GaiaStationSensorEntityDescription :=
  flat_map (fun config => map (dynamic_description group config) stat_variants)
           pm_configs.

(** The descriptions of the three groups, [pms1] first. *)
Definition ALL_DYNAMIC_SENSORS : list GaiaStationSensorEntityDescription :=
  flat_map group_descriptions PREFIX_CANDIDATES.

(** The description of the specification's example. *)
Definition pms2_pm10_min_description : GaiaStationSensorEntityDescription :=
  Description "pms2_pm10_min" "PMS2 PM10 Min"
    (Some CONCENTRATION_MICROGRAMS_PER_CUBIC_METER) (Some PM10) (Some MEASUREMENT)
    (getter "pms2_pm10_min") "mdi:blur-radial" true None.

(** [x] is a suffix of [w]. *)
Definition is_suffix (x w : string) : bool :=
  (String.length x <=? String.length w)%nat
  && String.eqb
       (String.substring (String.length w - String.length x) (String.length x) w) x.

(** The writes of a loop, as a list: [apply_writes l flat] performs
    [flat[k] = v] for each [(k, v)] of [l], in order. *)
Definition apply_writes (l : list (string * value)) (flat : dict) : dict :=
  fold_left (fun flat kv => dict_set (fst kv) (snd kv) flat) l flat.

Definition stat_writes (prefix : string) (block : dict) : list (string * value) :=
  flat_map
    (fun stat_key =>
       match dict_get stat_key block with
       | Some v => [((prefix ++ "_" ++ stat_key)%string, v)]
       | None => []
       end)
    STAT_KEYS.

Definition particle_writes (head : string) (group : dict) : list (string * value) :=
  flat_map
    (fun particle_type =>
       match dict_get particle_type group with
       | Some (VDict particle_data) =>
           stat_writes (head ++ "_" ++ particle_type) particle_data
       | _ => []
       end)
    PARTICLE_TYPES.

Definition group_writes (pms : dict) : list (string * value) :=
  flat_map
    (fun item : string * value =>
       let (group_key, group_data) := item in
       if String.eqb group_key "historic" || String.eqb group_key "rolling"
       then []
       else match group_data with
            | VDict group => particle_writes group_key group
            | _ => []
            end)
    pms.

Definition rolling_writes (pms : dict) : list (string * value) :=
  match dict_get_default "rolling" pms (VDict []) with
  | VDict rolling_pms => particle_writes "rolling" rolling_pms
  | _ => []
  end.

Definition co2_writes (data : dict) : list (string * value) :=
  match dict_get_default "co2" data (VDict []) with
  | VDict co2 =>
      match dict_get "rolling" co2 with
      | Some (VDict co2_rolling) => stat_writes "co2" co2_rolling
      | _ => []
      end
  | _ => []
  end.

Definition met_writes (data : dict) : list (string * value) :=
  match dict_get_default "met" data (VDict []) with
  | VDict met =>
      flat_map
        (fun met_type =>
           match dict_get met_type met with
           | Some (VDict met_data) => stat_writes met_type met_data
           | Some met_data =>
               if is_int_or_float met_data
               then [((met_type ++ "_latest")%string, met_data)]
               else []
           | None => []
           end)
        MET_TYPES
  | _ => []
  end.

Definition sys_writes (data : dict) : list (string * value) :=
  match dict_get_default "sys" data (VDict []) with
  | VDict sys_data =>
      flat_map
        (fun key =>
           match dict_get key sys_data with
           | Some v => [(("sys_" ++ key)%string, v)]
           | None => []
           end)
        SYS_KEYS
  | _ => []
  end.

Definition all_writes (data pms : dict) : list (string * value) :=
  group_writes pms ++ rolling_writes pms ++ co2_writes data
  ++ met_writes data ++ sys_writes data.

(** What the transform is to emit for a payload, as the source's
    comments and loops state it, one rule per block. *)
Inductive emitted (data : dict) : string -> value -> Prop :=
| emitted_group pms group_key group particle_type particle_data stat_key v :
    dict_get_default "pms" data (VDict []) = VDict pms ->
    In (group_key, VDict group) pms ->
    group_key <> "historic" -> group_key <> "rolling" ->
    In particle_type PARTICLE_TYPES ->
    dict_get particle_type group = Some (VDict particle_data) ->
    In stat_key STAT_KEYS -> dict_get stat_key particle_data = Some v ->
    emitted data (group_key ++ "_" ++ particle_type ++ "_" ++ stat_key) v
| emitted_rolling pms rolling_pms particle_type particle_data stat_key v :
    dict_get_default "pms" data (VDict []) = VDict pms ->
    dict_get "rolling" pms = Some (VDict rolling_pms) ->
    In particle_type PARTICLE_TYPES ->
    dict_get particle_type rolling_pms = Some (VDict particle_data) ->
    In stat_key STAT_KEYS -> dict_get stat_key particle_data = Some v ->
    emitted data ("rolling_" ++ particle_type ++ "_" ++ stat_key) v
| emitted_co2 co2 co2_rolling stat_key v :
    dict_get "co2" data = Some (VDict co2) ->
    dict_get "rolling" co2 = Some (VDict co2_rolling) ->
    In stat_key STAT_KEYS -> dict_get stat_key co2_rolling = Some v ->
    emitted data ("co2_" ++ stat_key) v
| emitted_met_stat met met_type met_data stat_key v :
    dict_get "met" data = Some (VDict met) ->
    In met_type MET_TYPES ->
    dict_get met_type met = Some (VDict met_data) ->
    In stat_key STAT_KEYS -> dict_get stat_key met_data = Some v ->
    emitted data (met_type ++ "_" ++ stat_key) v
| emitted_met_scalar met met_type v :
    dict_get "met" data = Some (VDict met) ->
    In met_type MET_TYPES ->
    dict_get met_type met = Some v -> is_int_or_float v = true ->
    emitted data (met_type ++ "_latest") v
| emitted_sys sys_data key v :
    dict_get "sys" data = Some (VDict sys_data) ->
    In key SYS_KEYS -> dict_get key sys_data = Some v ->
    emitted data ("sys_" ++ key) v.

(** The tails [_<channel>_<stat>] of the keys of a sensor group. *)
Definition GROUP_TAILS : list string :=
  flat_map (fun c => map (fun s => "_" ++ c ++ "_" ++ s)%string STAT_KEYS) PARTICLE_TYPES.

(** The keys of the [co2], [met] and [sys] blocks. *)
Definition FIXED_KEYS : list string :=
  map (fun s => "co2_" ++ s)%string STAT_KEYS
  ++ flat_map (fun mt => map (fun s => mt ++ "_" ++ s)%string STAT_KEYS) MET_TYPES
  ++ map (fun k => "sys_" ++ k)%string SYS_KEYS.

(** A payload with one sensor group, the rolling aggregate and a
    scalar [met] reading. *)
Definition mixed_payload : dict :=
  [("pms", VDict [("pms1", VDict [("pm25", VDict [("latest", VInt 7)])]);
                  ("rolling", VDict [("pm10", VDict [("mean", VInt 3)])])]);
   ("met", VDict [("temperature", VInt 21)])].

(** The classes of the errors that [async_get_data] builds itself. *)
Definition API_ERRORS : list exc_class :=
  [GaiaStationApiError; GaiaStationConnectionError; GaiaStationTimeoutError].

(** The exception, if any, that the network raises in an exchange:
    from the request or from reading the body. *)
Definition raised_by (net : exchange) : option exception :=
  match net with
  | TimesOut => None
  | GetRaises e => Some e
  | Response _ (TextRaises e) => Some e
  | Response _ (Text _) => None
  end.

(** The fetch raises [e] for a body that decodes to a value that is no
    object: the [ValueError] of [api.py], line 49. *)
Definition fails_on_non_object (decode : string -> result value) (net : exchange)
           (e : exception) : Prop :=
  exists status text data,
    net = Response status (Text text)
    /\ decode text = Return data /\ is_dict data = false
    /\ e = new_exc ValueError ("Expected dict, got <class '" ++ type_name data ++ "'>").

(** The decoder raises [e] on the body, and [e] is no
    [JSONDecodeError]. *)
Definition raised_by_decoder (decode : string -> result value) (net : exchange)
           (e : exception) : Prop :=
  exists status text,
    net = Response status (Text text)
    /\ decode text = Raise e /\ isinstance_exc e JSONDecodeError = false.

(** What CPython raises for a text nested deeper than the recursion
    depth that is left. *)
Definition deep_nesting_error : exception :=
  new_exc RecursionError
    "maximum recursion depth exceeded while decoding a JSON object from a unicode string".

(** A decoder with no recursion depth left. *)
Definition deep_nesting_decoder (text : string) : result value :=
  Raise deep_nesting_error.

(** The descriptions an entity can be created from: the static catalog,
    then those of the three candidate groups. *)
Definition ALL_SENSORS : list GaiaStationSensorEntityDescription :=
  ALL_STATIC_SENSORS ++ ALL_DYNAMIC_SENSORS.

(** The strings of a list are pairwise different. *)
Fixpoint distinct (l : list string) : bool :=
  match l with
  | [] => true
  | x :: l' => negb (existsb (String.eqb x) l') && distinct l'
  end.

(** A value as [json.loads] builds it: the keys of every object in it
    are pairwise different, as those of a Python [dict] are. *)
Inductive well_formed : value -> Prop :=
| wf_none : well_formed VNone
| wf_bool b : well_formed (VBool b)
| wf_int n : well_formed (VInt n)
| wf_float numeral : well_formed (VFloat numeral)
| wf_str s : well_formed (VStr s)
| wf_list items : Forall well_formed items -> well_formed (VList items)
| wf_dict entries :
    NoDup (dict_keys entries) ->
    Forall (fun kv => well_formed (snd kv)) entries ->
    well_formed (VDict entries).

(** An object with every stat field. *)
Definition stats_block : value := VDict (map (fun s => (s, VInt 1)) STAT_KEYS).

(** An object with the three particle channels. *)
Definition channels_block : value :=
  VDict (map (fun c => (c, stats_block)) PARTICLE_TYPES).

(** A payload with the three candidate groups, the rolling aggregate
    and every block. *)
Definition full_payload : dict :=
  [("pms", VDict (map (fun g => (g, channels_block)) (PREFIX_CANDIDATES ++ ["rolling"])));
   ("co2", VDict [("rolling", stats_block)]);
   ("met", VDict (map (fun m => (m, stats_block)) MET_TYPES));
   ("sys", VDict (map (fun k => (k, VInt 1)) SYS_KEYS))].

(* ================================================================== *)
(** * The decoder never uses up its fuel                               *)
(* ================================================================== *)

Import Json.

Section DecoderFacts.

Local Open Scope nat_scope.

Lemma progress_from {A : Type} (s : string) (i j : nat) (r : scan A) :
  progress s i r -> j <= i -> progress s j r.
Proof. destruct r; simpl; auto. lia. Qed.

Lemma length_skip (n : nat) (s : string) :
  String.length (skip n s) = String.length s - n.
Proof.
  revert s. induction n as [|n IH]; intros [|c s]; simpl; auto.
Qed.

Lemma span_le (p : ascii -> bool) (s : string) : span p s <= String.length s.
Proof. induction s as [|c s IH]; simpl; [lia|]. destruct (p c); lia. Qed.

Lemma skip_ws_bounds (s : string) (idx : nat) :
  idx <= skip_ws s idx /\ (idx <= String.length s -> skip_ws s idx <= String.length s).
Proof.
  unfold skip_ws. pose proof (span_le is_ws (skip idx s)) as H.
  rewrite length_skip in H. lia.
Qed.

Lemma char_at_lt (s : string) (idx : nat) (c : ascii) :
  char_at s idx = Some c -> idx < String.length s.
Proof.
  unfold char_at. revert idx. induction s as [|a s IH]; intros [|idx]; simpl;
    try discriminate; intros H; [lia|]. apply IH in H. lia.
Qed.

Lemma char_is_lt (s : string) (idx : nat) (c : ascii) :
  char_is s idx c = true -> idx < String.length s.
Proof.
  unfold char_is. destruct (char_at s idx) eqn:E; [|discriminate].
  intros _. now apply char_at_lt in E.
Qed.

Lemma length_substring (n m : nat) (s : string) :
  String.length (String.substring n m s) = Nat.min m (String.length s - n).
Proof.
  revert n m. induction s as [|c s IH]; intros [|n] [|m]; simpl; auto.
  - now rewrite IH, Nat.sub_0_r.
Qed.

Lemma slice_is_le (s : string) (idx len : nat) (lit : string) :
  slice_is s idx len lit = true -> String.length lit = len -> 0 < len ->
  idx < idx + len <= String.length s.
Proof.
  unfold slice_is. intros H Hlen Hpos. apply String.eqb_eq in H.
  apply (f_equal String.length) in H. rewrite length_substring in H. lia.
Qed.

Lemma chunk_length (s content : string) (t : ascii) :
  chunk s = Some (content, t) -> String.length content < String.length s.
Proof.
  revert content t. induction s as [|c s IH]; intros content t; simpl; [discriminate|].
  destruct (Ascii.eqb c DQUOTE || Ascii.eqb c BACKSLASH || (nat_of_ascii c <? 32)).
  - intros H. injection H as <- _. simpl. lia.
  - destruct (chunk s) as [[content' t']|]; [|discriminate].
    intros H. injection H as <- _. simpl. specialize (IH content' t' eq_refl). lia.
Qed.

Lemma scanstring_loop_progress (s : string) (begin : nat) :
  forall fuel end_ acc,
    end_ <= String.length s -> String.length s < fuel + end_ ->
    progress s end_ (scanstring_loop fuel s begin end_ acc).
Proof.
  induction fuel as [|fuel IH]; intros end_ acc Hle Hfuel; [lia|].
  cbn [scanstring_loop].
  destruct (chunk (skip end_ s)) as [[content terminator]|] eqn:Hchunk; [|exact I].
  apply chunk_length in Hchunk. rewrite length_skip in Hchunk.
  destruct (Ascii.eqb terminator DQUOTE); [simpl; lia|].
  destruct (negb (Ascii.eqb terminator BACKSLASH)); [exact I|].
  destruct (char_at s (end_ + String.length content + 1)) as [c|] eqn:Hc; [|exact I].
  apply char_at_lt in Hc.
  destruct (negb (Ascii.eqb c "u")).
  - destruct (backslash_table c); [|exact I].
    eapply progress_from; [apply IH|]; lia.
  - destruct (String.length s <=? end_ + String.length content + 1 + 1 + 4) eqn:Hend;
      [exact I|].
    apply Nat.leb_gt in Hend.
    destruct (hex4 s _); [|exact I].
    match goal with
    | |- context [if ?b then _ else _] => destruct b eqn:Hpair
    end.
    + apply andb_prop in Hpair. destruct Hpair as [Hpair _].
      apply andb_prop in Hpair. destruct Hpair as [Hpair _].
      apply andb_prop in Hpair. destruct Hpair as [_ Hroom].
      apply Nat.ltb_lt in Hroom.
      destruct (hex4 s _); [|exact I].
      destruct (is_low_surrogate _);
        (eapply progress_from; [apply IH|]; lia).
    + eapply progress_from; [apply IH|]; lia.
Qed.


Section ContainerProgress.

Variables (s : string) (scan_value : string -> nat -> scan value) (from : nat).
Hypothesis scan_value_progress :
  forall i, from <= i -> i <= String.length s -> progress s i (scan_value s i).

Lemma object_loop_progress :
  forall fuel end_ pairs,
    from <= end_ -> end_ <= String.length s -> String.length s + 1 < fuel + end_ ->
    progress s end_ (object_loop scan_value fuel s end_ pairs).
Proof.
  induction fuel as [|fuel IH]; intros end_ pairs Hfrom Hle Hfuel; [lia|].
  cbn [object_loop].
  pose proof (scanstring_loop_progress s (end_ - 1) fuel end_ EmptyString Hle) as Hkey.
  unfold scanstring.
  destruct (scanstring_loop fuel s (end_ - 1) end_ EmptyString) as [key e1| | |];
    simpl in Hkey; try exact I; [|lia].
  specialize (Hkey ltac:(lia)).
  pose proof (skip_ws_bounds s e1) as [H1 H1'].
  destruct (negb (char_is s (skip_ws s e1) ":")) eqn:Hcolon; [exact I|].
  apply negb_false_iff, char_is_lt in Hcolon.
  pose proof (skip_ws_bounds s (skip_ws s e1 + 1)) as [H2 H2'].
  pose proof (scan_value_progress (skip_ws s (skip_ws s e1 + 1)) ltac:(lia) ltac:(lia))
    as Hval.
  destruct (scan_value s (skip_ws s (skip_ws s e1 + 1))) as [v e3| | |];
    simpl in Hval; try exact I; [|destruct Hval].
  pose proof (skip_ws_bounds s e3) as [H3 H3'].
  destruct (char_is s (skip_ws s e3) "}") eqn:Hclose.
  { apply char_is_lt in Hclose. simpl. lia. }
  destruct (negb (char_is s (skip_ws s e3) ",")) eqn:Hcomma; [exact I|].
  apply negb_false_iff, char_is_lt in Hcomma.
  pose proof (skip_ws_bounds s (skip_ws s e3 + 1)) as [H4 H4'].
  destruct (negb (char_is s (skip_ws s (skip_ws s e3 + 1)) DQUOTE)) eqn:Hquote;
    [exact I|].
  apply negb_false_iff, char_is_lt in Hquote.
  eapply progress_from; [apply IH|]; lia.
Qed.

Lemma JSONObject_progress (fuel end_ : nat) :
  from <= end_ -> end_ <= String.length s -> String.length s < fuel + end_ ->
  progress s end_ (JSONObject scan_value fuel s end_).
Proof.
  intros Hfrom Hle Hfuel. unfold JSONObject.
  pose proof (skip_ws_bounds s end_) as [H1 H1'].
  destruct (char_is s (skip_ws s end_) "}") eqn:Hclose.
  { apply char_is_lt in Hclose. simpl. lia. }
  destruct (negb (char_is s (skip_ws s end_) DQUOTE)) eqn:Hquote; [exact I|].
  apply negb_false_iff, char_is_lt in Hquote.
  eapply progress_from; [apply object_loop_progress|]; lia.
Qed.

Lemma array_loop_progress :
  forall fuel end_ values,
    from <= end_ -> end_ <= String.length s -> String.length s < fuel + end_ ->
    progress s end_ (array_loop scan_value fuel s end_ values).
Proof.
  induction fuel as [|fuel IH]; intros end_ values Hfrom Hle Hfuel; [lia|].
  cbn [array_loop].
  pose proof (scan_value_progress end_ Hfrom Hle) as Hval.
  destruct (scan_value s end_) as [v e1| | |]; simpl in Hval; try exact I;
    [|destruct Hval].
  pose proof (skip_ws_bounds s e1) as [H1 H1'].
  destruct (char_is s (skip_ws s e1) "]") eqn:Hclose.
  { apply char_is_lt in Hclose. simpl. lia. }
  destruct (negb (char_is s (skip_ws s e1) ",")) eqn:Hcomma; [exact I|].
  apply negb_false_iff, char_is_lt in Hcomma.
  pose proof (skip_ws_bounds s (skip_ws s e1 + 1)) as [H2 H2'].
  eapply progress_from; [apply IH|]; lia.
Qed.

Lemma JSONArray_progress (fuel end_ : nat) :
  from <= end_ -> end_ <= String.length s -> String.length s < fuel + end_ ->
  progress s end_ (JSONArray scan_value fuel s end_).
Proof.
  intros Hfrom Hle Hfuel. unfold JSONArray.
  pose proof (skip_ws_bounds s end_) as [H1 H1'].
  destruct (char_is s (skip_ws s end_) "]") eqn:Hclose.
  { apply char_is_lt in Hclose. simpl. lia. }
  eapply progress_from; [apply array_loop_progress|]; lia.
Qed.

End ContainerProgress.

Lemma match_number_progress (s : string) (idx : nat) (integer frac exp : string) :
  match_number s idx = Some (integer, frac, exp) ->
  idx < idx + String.length integer + String.length frac + String.length exp
  <= String.length s.
Proof.
  unfold match_number. cbv zeta.
  set (sign := if char_is s idx "-" then 1 else 0).
  set (int_len := if char_is s (idx + sign) "0" then 1
                  else span is_digit (skip (idx + sign) s)).
  destruct (int_len =? 0) eqn:Hzero; [discriminate|].
  apply Nat.eqb_neq in Hzero.
  assert (Hint : idx + sign + int_len <= String.length s).
  { subst int_len. destruct (char_is s (idx + sign) "0") eqn:E.
    - apply char_is_lt in E. lia.
    - pose proof (span_le is_digit (skip (idx + sign) s)) as H.
      rewrite length_skip in H. lia. }
  set (p := idx + sign + int_len) in *.
  match goal with
  | |- context [if ?c then String.substring p ?n s else EmptyString] =>
      set (frac' := if c then String.substring p n s else EmptyString)
  end.
  assert (Hfrac : p + String.length frac' <= String.length s).
  { subst frac'.
    match goal with
    | |- context [if ?c then String.substring _ _ _ else EmptyString] => destruct c
    end; [rewrite length_substring | change (String.length EmptyString) with 0]; lia. }
  set (q := p + String.length frac') in *.
  match goal with
  | |- context [if ?c then String.substring q ?n s else EmptyString] =>
      set (exp' := if c then String.substring q n s else EmptyString)
  end.
  assert (Hexp : q + String.length exp' <= String.length s).
  { subst exp'.
    match goal with
    | |- context [if ?c then String.substring _ _ _ else EmptyString] => destruct c
    end; [rewrite length_substring | change (String.length EmptyString) with 0]; lia. }
  intros H. injection H as <- <- <-.
  rewrite length_substring. lia.
Qed.

Lemma scan_once_progress (s : string) :
  forall fuel idx,
    idx <= String.length s -> String.length s < fuel + idx ->
    progress s idx (scan_once fuel s idx).
Proof.
  induction fuel as [|fuel IH]; intros idx Hle Hfuel; [lia|].
  cbn [scan_once].
  destruct (char_at s idx) as [nextchar|] eqn:Hc; [|exact I].
  apply char_at_lt in Hc.
  assert (Hinner : forall i, idx + 1 <= i -> i <= String.length s ->
                             progress s i (scan_once fuel s i))
    by (intros; apply IH; lia).
  destruct (Ascii.eqb nextchar DQUOTE).
  { pose proof (scanstring_loop_progress s (idx + 1 - 1) fuel (idx + 1) EmptyString
                  ltac:(lia) ltac:(lia)) as H.
    unfold scanstring.
    destruct (scanstring_loop fuel s (idx + 1 - 1) (idx + 1) EmptyString);
      simpl in *; auto; lia. }
  destruct (Ascii.eqb nextchar "{").
  { eapply progress_from; [apply (JSONObject_progress s _ (idx + 1) Hinner)|]; lia. }
  destruct (Ascii.eqb nextchar "[").
  { eapply progress_from; [apply (JSONArray_progress s _ (idx + 1) Hinner)|]; lia. }
  destruct (slice_is s idx 4 "null") eqn:E1.
  { apply slice_is_le in E1; simpl; auto; lia. }
  destruct (slice_is s idx 4 "true") eqn:E2.
  { apply slice_is_le in E2; simpl; auto; lia. }
  destruct (slice_is s idx 5 "false") eqn:E3.
  { apply slice_is_le in E3; simpl; auto; lia. }
  destruct (match_number s idx) as [[[integer frac] exp]|] eqn:Hnum.
  { apply match_number_progress in Hnum.
    destruct ((String.length frac =? 0) && (String.length exp =? 0)); simpl; lia. }
  destruct (slice_is s idx 3 "NaN") eqn:E4.
  { apply slice_is_le in E4; simpl; auto; lia. }
  destruct (slice_is s idx 8 "Infinity") eqn:E5.
  { apply slice_is_le in E5; simpl; auto; lia. }
  destruct (slice_is s idx 9 "-Infinity") eqn:E6.
  { apply slice_is_le in E6; simpl; auto; lia. }
  exact I.
Qed.

(** [loads] returns a value or raises [JSONDecodeError]: the fuel it
    gives is never used up. *)
Lemma loads_total (s : string) :
  (exists v, loads s = Return v)
  \/ (exists e, loads s = Raise e /\ exc_type e = JSONDecodeError).
Proof.
  unfold loads. destruct (startswith s BOM); [right; eexists; split; reflexivity|].
  pose proof (skip_ws_bounds s 0) as [_ Hws].
  pose proof (scan_once_progress s (2 * String.length s + 4) (skip_ws s 0)
                ltac:(lia) ltac:(lia)) as H.
  destruct (scan_once (2 * String.length s + 4) s (skip_ws s 0)); simpl in H.
  - destruct (negb (_ =? _)); [right|left]; eexists; try split; reflexivity.
  - right; eexists; split; reflexivity.
  - right; eexists; split; reflexivity.
  - destruct H.
Qed.

End DecoderFacts.

(* ================================================================== *)
(** * Dictionaries                                                     *)
(* ================================================================== *)

Section DictFacts.

Lemma dict_get_set_same (k : string) (v : value) (d : dict) :
  dict_get k (dict_set k v d) = Some v.
Proof.
  induction d as [|[k' v'] d IH]; simpl.
  - now rewrite String.eqb_refl.
  - destruct (String.eqb k k') eqn:E; simpl; rewrite E; auto.
Qed.

Lemma dict_get_set_other (k k' : string) (v : value) (d : dict) :
  k <> k' -> dict_get k (dict_set k' v d) = dict_get k d.
Proof.
  intros Hne. induction d as [|[k0 v0] d IH]; simpl.
  - apply String.eqb_neq in Hne. now rewrite Hne.
  - destruct (String.eqb k' k0) eqn:E; simpl.
    + apply String.eqb_eq in E; subst k0.
      apply String.eqb_neq in Hne. now rewrite Hne.
    + now rewrite IH.
Qed.

Lemma dict_contains_keys (k : string) (d : dict) :
  dict_contains k d = true <-> In k (dict_keys d).
Proof.
  unfold dict_contains, dict_keys.
  induction d as [|[k' v'] d IH]; simpl.
  - split; [discriminate | tauto].
  - destruct (String.eqb k k') eqn:E.
    + apply String.eqb_eq in E. subst. tauto.
    + apply String.eqb_neq in E. rewrite IH. split; [tauto|].
      intros [H|H]; [congruence | exact H].
Qed.

Lemma append_inj_l (p a b : string) : (p ++ a = p ++ b)%string -> a = b.
Proof.
  induction p as [|c p IH]; simpl; intros H; [exact H|].
  injection H as H. auto.
Qed.

End DictFacts.

(* ================================================================== *)
(** * The flattening transform                                         *)
(* ================================================================== *)

Section FlattenFacts.

Lemma emit_stats_write_loop (prefix : string) (block flat : dict) :
  emit_stats prefix block flat
  = write_loop (fun k => prefix ++ "_" ++ k)%string block STAT_KEYS flat.
Proof. reflexivity. Qed.

(** Keys that the loop does not name keep their binding. *)
Lemma write_loop_other (name : string -> string) (src : dict) (keys : list string) :
  forall (flat : dict) (K : string),
    (forall k, In k keys -> K <> name k) ->
    dict_get K (write_loop name src keys flat) = dict_get K flat.
Proof.
  unfold write_loop.
  induction keys as [|k keys IH]; intros flat K Hk; simpl; [reflexivity|].
  rewrite IH by (intros; apply Hk; now right).
  destruct (dict_get k src); [|reflexivity].
  apply dict_get_set_other. apply Hk. now left.
Qed.

(** A key of the loop that the source has ends up bound to the
    source's value. *)
Lemma write_loop_hit (name : string -> string) (src : dict) (keys : list string) :
  (forall a b, name a = name b -> a = b) ->
  forall (flat : dict) (k : string) (v : value),
    In k keys -> dict_get k src = Some v ->
    dict_get (name k) (write_loop name src keys flat) = Some v.
Proof.
  intros Hinj. unfold write_loop.
  induction keys as [|k0 keys IH]; intros flat k v Hin Hget; simpl; [destruct Hin|].
  destruct (string_dec k0 k) as [->|Hne].
  - rewrite Hget.
    destruct (in_dec string_dec k keys) as [Hin'|Hnin].
    + now apply IH.
    + fold (write_loop name src keys (dict_set (name k) v flat)).
      rewrite write_loop_other.
      * apply dict_get_set_same.
      * intros k' Hk' E. apply Hinj in E. congruence.
  - destruct Hin as [->|Hin]; [congruence|]. now apply IH.
Qed.

Lemma emit_stats_hit (prefix : string) (block flat : dict) (stat : string) (v : value) :
  In stat STAT_KEYS -> dict_get stat block = Some v ->
  dict_get (prefix ++ "_" ++ stat) (emit_stats prefix block flat) = Some v.
Proof.
  intros. rewrite emit_stats_write_loop.
  apply (write_loop_hit (fun k => prefix ++ "_" ++ k)%string); auto.
  intros a b E. apply append_inj_l in E. now apply (append_inj_l "_") in E.
Qed.

Lemma emit_stats_other (prefix : string) (block flat : dict) (K : string) :
  (forall stat, In stat STAT_KEYS -> K <> (prefix ++ "_" ++ stat)%string) ->
  dict_get K (emit_stats prefix block flat) = dict_get K flat.
Proof.
  intros. rewrite emit_stats_write_loop. now apply write_loop_other.
Qed.

Lemma emit_sys_other (data flat : dict) (K : string) :
  (forall k, In k SYS_KEYS -> K <> ("sys_" ++ k)%string) ->
  dict_get K (emit_sys data flat) = dict_get K flat.
Proof.
  intros H. unfold emit_sys.
  destruct (dict_get_default "sys" data (VDict [])); try reflexivity.
  now apply (write_loop_other (fun k => "sys_" ++ k)%string).
Qed.

(** The transform returns exactly when [pms] is absent or an object;
    on any other [pms] the call [pms.items()] raises. *)
Lemma flatten_returns (self : GaiaStationDataUpdateCoordinator) (data pms : dict) :
  dict_get_default "pms" data (VDict []) = VDict pms ->
  _flatten_data self data
  = (Return (emit_sys data (emit_met data (emit_co2 data
               (emit_rolling pms (emit_groups pms []))))), self).
Proof.
  intros H. unfold _flatten_data. now rewrite H.
Qed.

Lemma flatten_raises (self : GaiaStationDataUpdateCoordinator) (data : dict) :
  is_dict (dict_get_default "pms" data (VDict [])) = false ->
  _flatten_data self data
  = (Raise (new_exc AttributeError
              ("'" ++ type_name (dict_get_default "pms" data (VDict []))
                   ++ "' object has no attribute 'items'")), self).
Proof.
  intros H. unfold _flatten_data.
  destruct (dict_get_default "pms" data (VDict [])); simpl in *;
    try reflexivity; discriminate.
Qed.

End FlattenFacts.

Section MetFacts.

Variables (data met : dict).
Hypothesis Hmet : dict_get_default "met" data (VDict []) = VDict met.

Let temperature_not_humidity (stat stat' : string) :
  ("temperature" ++ "_" ++ stat)%string <> ("humidity" ++ "_" ++ stat')%string.
Proof. simpl. discriminate. Qed.

(** The step of the [met] loop for one [met_type]. *)
Let met_step (flat : dict) (met_type : string) : dict :=
  match dict_get met_type met with
  | Some (VDict met_data) => emit_stats met_type met_data flat
  | Some met_data =>
      if is_int_or_float met_data
      then dict_set (met_type ++ "_latest") met_data flat
      else flat
  | None => flat
  end.

Let emit_met_steps (flat : dict) :
  emit_met data flat = met_step (met_step flat "temperature") "humidity".
Proof. unfold emit_met. rewrite Hmet. reflexivity. Qed.

(** The humidity step leaves the temperature keys alone. *)
Let humidity_step_other (flat : dict) (K : string) :
  (forall stat, K <> ("humidity" ++ "_" ++ stat)%string) ->
  dict_get K (met_step flat "humidity") = dict_get K flat.
Proof.
  intros HK. unfold met_step.
  destruct (dict_get "humidity" met) as [[]|]; simpl; try reflexivity.
  - apply dict_get_set_other. apply (HK "latest").
  - apply dict_get_set_other. apply (HK "latest").
  - apply dict_get_set_other. apply (HK "latest").
  - apply emit_stats_other. intros stat _. apply HK.
Qed.

Lemma emit_met_scalar (flat : dict) (met_type : string) (v : value) :
  In met_type MET_TYPES ->
  dict_get met_type met = Some v -> is_int_or_float v = true ->
  dict_get (met_type ++ "_latest") (emit_met data flat) = Some v.
Proof.
  intros Hin Hget Hnum. rewrite emit_met_steps.
  assert (Hstep : forall f, dict_get (met_type ++ "_latest") (met_step f met_type) = Some v).
  { intros f. unfold met_step. rewrite Hget.
    destruct v; try discriminate; simpl; apply dict_get_set_same. }
  unfold MET_TYPES in Hin. in_cases Hin.
  - rewrite humidity_step_other; [apply Hstep|].
    intros stat. apply (temperature_not_humidity "latest").
  - apply Hstep.
Qed.

Lemma emit_met_object (flat : dict) (met_type : string) (met_data : dict)
      (stat : string) (v : value) :
  In met_type MET_TYPES ->
  dict_get met_type met = Some (VDict met_data) ->
  In stat STAT_KEYS -> dict_get stat met_data = Some v ->
  dict_get (met_type ++ "_" ++ stat) (emit_met data flat) = Some v.
Proof.
  intros Hin Hget Hstat Hv. rewrite emit_met_steps.
  assert (Hstep : forall f, dict_get (met_type ++ "_" ++ stat) (met_step f met_type) = Some v).
  { intros f. unfold met_step. rewrite Hget. now apply emit_stats_hit. }
  unfold MET_TYPES in Hin. in_cases Hin.
  - rewrite humidity_step_other; [apply Hstep|].
    intros stat'. apply temperature_not_humidity.
  - apply Hstep.
Qed.

End MetFacts.

(** The [sys] block writes [sys_...] keys only. *)
Lemma emit_sys_keeps_met (data flat : dict) (met_type rest : string) :
  In met_type MET_TYPES ->
  dict_get (met_type ++ rest) (emit_sys data flat) = dict_get (met_type ++ rest) flat.
Proof.
  intros Hin. apply emit_sys_other. intros k _.
  unfold MET_TYPES in Hin. in_cases Hin; simpl; discriminate.
Qed.

(* ================================================================== *)
(** * Claims about the flattening transform                            *)
(* ================================================================== *)

(** C1.  The claim is that the transform never raises, whatever the
    payload, and names a [pms] bound to a number as a case that only
    costs that branch its keys.  The code calls [pms.items()] on what
    [data.get("pms", {})] returned without the [isinstance] test that
    the [co2], [met], [sys] and [rolling] branches make: on the payload
    [{"pms": 5}] the transform raises [AttributeError]. *)
Theorem flatten_raises_on_scalar_pms (self : GaiaStationDataUpdateCoordinator) :
  _flatten_data self [("pms", VInt 5)]
  = (Raise (new_exc AttributeError "'int' object has no attribute 'items'"), self).
Proof. reflexivity. Qed.

(** X2.  The transform returns a map exactly when [pms] is absent or an
    object; on any other payload it raises [AttributeError] and returns
    nothing. *)
Theorem flatten_returns_iff (self : GaiaStationDataUpdateCoordinator) (data : dict) :
  ((exists flat, fst (_flatten_data self data) = Return flat)
   <-> is_dict (dict_get_default "pms" data (VDict [])) = true)
  /\
  ((exists e, fst (_flatten_data self data) = Raise e /\ exc_type e = AttributeError)
   <-> is_dict (dict_get_default "pms" data (VDict [])) = false).
Proof.
  destruct (dict_get_default "pms" data (VDict [])) as [| | | | | |pms] eqn:E;
    try (rewrite (flatten_raises self data) by (now rewrite E); rewrite E; simpl;
         split; split;
         [ intros [flat H]; discriminate H
         | discriminate
         | reflexivity
         | intros _; eexists; split; reflexivity ]).
  rewrite (flatten_returns self data pms E). simpl. split; split.
  - reflexivity.
  - intros _. eexists. reflexivity.
  - intros [e [H _]]. discriminate H.
  - discriminate.
Qed.

(** C7.  On [{"pms": {"pms1": {"pm25": {"latest": 12, "mean": 10}}},
    "sys": {"boot": 3}}] the transform returns the map with the three
    keys [pms1_pm25_latest], [pms1_pm25_mean], [sys_boot], bound to 12,
    10 and 3, and no other key. *)
Theorem flatten_example (self : GaiaStationDataUpdateCoordinator) :
  fst (_flatten_data self
         [("pms", VDict [("pms1", VDict [("pm25",
                            VDict [("latest", VInt 12); ("mean", VInt 10)])])]);
          ("sys", VDict [("boot", VInt 3)])])
  = Return [("pms1_pm25_latest", VInt 12);
            ("pms1_pm25_mean", VInt 10);
            ("sys_boot", VInt 3)].
Proof. reflexivity. Qed.

(** C9.  Under [met], a bare number is stored under [<name>_latest],
    and an object gives [<name>_<statfield>] for each recognized stat
    field it has.  First the example of the specification
    ([{"met": {"temperature": 21.5}}] gives exactly
    [{"temperature_latest": 21.5}]); then the [met] block on any payload
    and any map built so far; then the whole transform, which returns
    whenever [pms] is absent or an object, with these bindings in the
    map it returns. *)
Theorem met_rule :
  (forall self,
      fst (_flatten_data self [("met", VDict [("temperature", VFloat "21.5")])])
      = Return [("temperature_latest", VFloat "21.5")])
  /\
  (forall data met flat met_type,
      dict_get_default "met" data (VDict []) = VDict met ->
      In met_type MET_TYPES ->
      (forall v, dict_get met_type met = Some v -> is_int_or_float v = true ->
                 dict_get (met_type ++ "_latest") (emit_met data flat) = Some v)
      /\
      (forall met_data stat v,
          dict_get met_type met = Some (VDict met_data) ->
          In stat STAT_KEYS -> dict_get stat met_data = Some v ->
          dict_get (met_type ++ "_" ++ stat) (emit_met data flat) = Some v))
  /\
  (forall self data pms met met_type,
      dict_get_default "pms" data (VDict []) = VDict pms ->
      dict_get_default "met" data (VDict []) = VDict met ->
      In met_type MET_TYPES ->
      exists flat,
        fst (_flatten_data self data) = Return flat
        /\
        (forall v, dict_get met_type met = Some v -> is_int_or_float v = true ->
                   dict_get (met_type ++ "_latest") flat = Some v)
        /\
        (forall met_data stat v,
            dict_get met_type met = Some (VDict met_data) ->
            In stat STAT_KEYS -> dict_get stat met_data = Some v ->
            dict_get (met_type ++ "_" ++ stat) flat = Some v)).
Proof.
  split; [reflexivity|]. split.
  - intros data met flat met_type Hmet Hin. split.
    + intros v Hget Hnum. eapply (emit_met_scalar data met); eassumption.
    + intros met_data stat v Hget Hstat Hv. eapply (emit_met_object data met); eassumption.
  - intros self data pms met met_type Hpms Hmet Hin.
    eexists. split; [rewrite (flatten_returns self data pms Hpms); reflexivity|].
    split.
    + intros v Hget Hnum. rewrite emit_sys_keeps_met by assumption.
      eapply (emit_met_scalar data met); eassumption.
    + intros met_data stat v Hget Hstat Hv.
      rewrite emit_sys_keeps_met by assumption.
      eapply (emit_met_object data met); eassumption.
Qed.

Lemma met_rule_witness :
  exists flat,
    fst (_flatten_data polled_coordinator
           [("met", VDict [("temperature", VInt 21);
                           ("humidity", VDict [("mean", VFloat "40.5")])])])
    = Return flat
    /\ dict_get "temperature_latest" flat = Some (VInt 21)
    /\ dict_get "humidity_mean" flat = Some (VFloat "40.5").
Proof.
  pose (data := [("met", VDict [("temperature", VInt 21);
                                ("humidity", VDict [("mean", VFloat "40.5")])])]).
  destruct (proj2 (proj2 met_rule) polled_coordinator data []
              [("temperature", VInt 21); ("humidity", VDict [("mean", VFloat "40.5")])]
              "temperature" eq_refl eq_refl (or_introl eq_refl))
    as [flat [Hret [Hscalar _]]].
  destruct (proj2 (proj2 met_rule) polled_coordinator data []
              [("temperature", VInt 21); ("humidity", VDict [("mean", VFloat "40.5")])]
              "humidity" eq_refl eq_refl (or_intror (or_introl eq_refl)))
    as [flat' [Hret' [_ Hobject]]].
  exists flat. split; [exact Hret|]. split.
  - apply (Hscalar (VInt 21)); reflexivity.
  - assert (Hsame : flat' = flat).
    { rewrite Hret in Hret'. now injection Hret'. }
    rewrite <- Hsame.
    apply (Hobject [("mean", VFloat "40.5")] "mean" (VFloat "40.5"));
      [reflexivity | simpl; tauto | reflexivity].
Defined.

(** C10.  The transform is a function of the payload alone: its outcome
    does not depend on the coordinator it is called on, it leaves the
    coordinator as it found it, and a second call on the same payload,
    on the coordinator the first call left, has the same outcome. *)
Theorem flatten_deterministic
        (self other : GaiaStationDataUpdateCoordinator) (data : dict) :
  fst (_flatten_data self data) = fst (_flatten_data other data)
  /\ snd (_flatten_data self data) = self
  /\ (let (first, self1) := _flatten_data self data in
      let (second, self2) := _flatten_data self1 data in
      first = second /\ self2 = self).
Proof.
  unfold _flatten_data. simpl. auto.
Qed.

(* ================================================================== *)
(** * Claims about the transport client                                *)
(* ================================================================== *)

Section TransportFacts.

Variables (self : GaiaStationApiClient) (endpoint : string).

(** Any response below 400, redirects included, is read and decoded. *)
Lemma status_below_400 (status : Z) (content : body) :
  (status < 400)%Z ->
  async_get_data self endpoint (Response status content)
  = async_get_data self endpoint (Response 200 content).
Proof.
  intros H. unfold async_get_data, async_get_data_with, session_get, raise_for_status, ok. simpl.
  destruct (Z.ltb_spec status 400) as [_|Hge]; [reflexivity | lia].
Qed.

(** A decoded body that is no object raises [ValueError], which no
    handler of [async_get_data] catches. *)
Lemma non_object_json_escapes (status : Z) (text : string) (data : value) :
  (status < 400)%Z ->
  Json.loads text = Return data -> is_dict data = false ->
  async_get_data self endpoint (Response status (Text text))
  = Raise (new_exc ValueError
             ("Expected dict, got <class '" ++ type_name data ++ "'>")).
Proof.
  intros Hs Hloads Hdict. rewrite status_below_400 by assumption.
  unfold async_get_data, async_get_data_with. simpl. rewrite Hloads.
  destruct data; try discriminate; reflexivity.
Qed.

(** A body that the decoder rejects gives the API error with the
    decoder's message. *)
Lemma invalid_json_is_api_error (status : Z) (text : string) (e : exception) :
  (status < 400)%Z ->
  Json.loads text = Raise e -> exc_type e = JSONDecodeError ->
  async_get_data self endpoint (Response status (Text text))
  = Raise (new_exc GaiaStationApiError
             ("Invalid JSON response from " ++ (_base_url self ++ endpoint)
              ++ ": " ++ exc_str e)).
Proof.
  intros Hs Hloads Hty. rewrite status_below_400 by assumption.
  unfold async_get_data, async_get_data_with. simpl. rewrite Hloads.
  destruct e as [c m st]. simpl in Hty. subst c. reflexivity.
Qed.

End TransportFacts.

(** X1.  What the fetch does with the body of a response below 400, by
    what the decoder makes of the text, for every behaviour of the
    decoder: an object is returned; any other value raises
    [ValueError]; a [JSONDecodeError] is replaced by
    [GaiaStationApiError] with the decoder's message; and any other
    error of the decoder (the [RecursionError] of a deeply nested
    text, the [ValueError] of an integer literal over the digit limit)
    leaves the fetch as it is, unless it is a timeout or a client
    error. *)
Theorem fetch_by_decoded_body (decode : string -> result value)
        (self : GaiaStationApiClient) (endpoint : string)
        (status : Z) (text : string) :
  (status < 400)%Z ->
  match decode text with
  | Return (VDict d) =>
      async_get_data_with decode self endpoint (Response status (Text text)) = Return d
  | Return data =>
      async_get_data_with decode self endpoint (Response status (Text text))
      = Raise (new_exc ValueError
                 ("Expected dict, got <class '" ++ type_name data ++ "'>"))
  | Raise e =>
      if isinstance_exc e JSONDecodeError
      then
        async_get_data_with decode self endpoint (Response status (Text text))
        = Raise (new_exc GaiaStationApiError
                   ("Invalid JSON response from " ++ (_base_url self ++ endpoint)
                    ++ ": " ++ exc_str e))
      else
        isinstance_exc e TimeoutError = false ->
        isinstance_exc e ClientError = false ->
        async_get_data_with decode self endpoint (Response status (Text text))
        = Raise e
  end.
Proof.
  intros Hs. unfold async_get_data_with, session_get, raise_for_status, ok.
  cbn [bind fst snd].
  destruct (Z.ltb_spec status 400) as [_|Hge]; [|lia].
  cbn [bind response_text].
  destruct (decode text) as [v|e]; cbn [bind].
  - destruct v; reflexivity.
  - cbn [try_except dispatch].
    destruct (isinstance_exc e JSONDecodeError); [reflexivity|].
    intros Ht Hc. cbn [try_except dispatch]. rewrite Ht.
    assert (Hconn : isinstance_exc e ClientConnectionError = false).
    { destruct e as [c m st]. unfold isinstance_exc in *. cbn [exc_type] in *.
      destruct c; try reflexivity; discriminate Hc. }
    assert (Hresp : isinstance_exc e ClientResponseError = false).
    { destruct e as [c m st]. unfold isinstance_exc in *. cbn [exc_type] in *.
      destruct c; try reflexivity; discriminate Hc. }
    now rewrite Hconn, Hresp, Hc.
Qed.

Lemma fetch_by_decoded_body_witness :
  async_get_data_with Json.loads (new_client "gaia.local") "/realtime/"
    (Response 200 (Text ("{" ++ quoted "sys" ++ ": {" ++ quoted "boot" ++ ": 3}}")))
  = Return [("sys", VDict [("boot", VInt 3)])]
  /\
  async_get_data_with deep_nesting_decoder (new_client "gaia.local") "/realtime/"
    (Response 200 (Text "[[[["))
  = Raise deep_nesting_error.
Proof.
  split.
  - apply (fetch_by_decoded_body Json.loads (new_client "gaia.local") "/realtime/" 200
             ("{" ++ quoted "sys" ++ ": {" ++ quoted "boot" ++ ": 3}}")).
    reflexivity.
  - apply (fetch_by_decoded_body deep_nesting_decoder (new_client "gaia.local")
             "/realtime/" 200 "[[[["); reflexivity.
Defined.

(** C2.  The claim is that a body that is valid JSON but no object
    makes the fetch fail with an error of the [GaiaStationApiError]
    taxonomy.  The code raises [ValueError] for it inside a [try] whose
    only handler is for [json.JSONDecodeError], and none of the outer
    handlers takes a [ValueError]: on the body [[]] the fetch raises
    [ValueError], which is no [GaiaStationApiError]. *)
Theorem array_body_raises_ValueError (self : GaiaStationApiClient) (endpoint : string) :
  async_get_data self endpoint (Response 200 (Text "[]"))
  = Raise (new_exc ValueError "Expected dict, got <class 'list'>")
  /\ issubclass ValueError GaiaStationApiError = false.
Proof. split; reflexivity. Qed.

(** C3, as stated, fails on a redirect: a 302 response whose body is
    the JSON object [{}] is not an error for [raise_for_status], and
    the fetch returns the object. *)
Lemma redirect_with_object_body_returns :
  ~ (200 <= 302 < 300)%Z
  /\ async_get_data (new_client "gaia.local") "/realtime/" (Response 302 (Text "{}"))
     = Return [].
Proof. split; [lia | reflexivity]. Qed.

(** C3, amended.  A response with status 400 or above makes the fetch
    fail with [GaiaStationApiError] whose message carries the status
    code; a response below 400, a redirect included (redirects are not
    followed), is treated as a 200 response with the same body. *)
Theorem http_error_status (self : GaiaStationApiClient) (endpoint : string)
        (status : Z) (content : body) :
  ((400 <= status)%Z ->
   async_get_data self endpoint (Response status content)
   = Raise (new_exc GaiaStationApiError
              ("HTTP " ++ str_of_Z status ++ " error from "
               ++ _base_url self ++ endpoint)))
  /\
  ((status < 400)%Z ->
   async_get_data self endpoint (Response status content)
   = async_get_data self endpoint (Response 200 content)).
Proof.
  split; [|apply status_below_400].
  intros H. unfold async_get_data, async_get_data_with, session_get, raise_for_status, ok. simpl.
  destruct (Z.ltb_spec status 400) as [Hlt|_]; [lia | reflexivity].
Qed.

Lemma http_error_status_witness :
  async_get_data (new_client "gaia.local") "/realtime/" (Response 404 (Text "Not Found"))
  = Raise (new_exc GaiaStationApiError "HTTP 404 error from http://gaia.local/realtime/")
  /\
  async_get_data (new_client "gaia.local") "/realtime/" (Response 302 (Text "{}"))
  = async_get_data (new_client "gaia.local") "/realtime/" (Response 200 (Text "{}")).
Proof.
  split.
  - apply (proj1 (http_error_status (new_client "gaia.local") "/realtime/" 404
                    (Text "Not Found"))). lia.
  - apply (proj2 (http_error_status (new_client "gaia.local") "/realtime/" 302
                    (Text "{}"))). lia.
Defined.


(* ================================================================== *)
(** * Claims about the poll orchestrator                               *)
(* ================================================================== *)

(** C5, as stated, fails.  The orchestrator converts the errors of the
    [GaiaStationApiError] taxonomy and no others.  When the body cannot
    be decoded as text, [response.text()] raises [UnicodeDecodeError],
    which reaches the host as it is; and when the fetched object has a
    [pms] that is a number, the raw payload has been replaced by the
    time the transform raises [AttributeError]. *)
Lemma update_failure_not_always_UpdateFailed :
  _async_update_data polled_coordinator
    (Response 200 (TextRaises (new_exc UnicodeDecodeError
       "'utf-8' codec can't decode byte 0xff in position 0: invalid start byte")))
  = (Raise (new_exc UnicodeDecodeError
       "'utf-8' codec can't decode byte 0xff in position 0: invalid start byte"),
     polled_coordinator)
  /\
  _async_update_data polled_coordinator
    (Response 200 (Text ("{" ++ quoted "pms" ++ ": 5}")))
  = (Raise (new_exc AttributeError "'int' object has no attribute 'items'"),
     {| client := new_client "gaia.local"; raw_data := [("pms", VInt 5)] |}).
Proof. split; reflexivity. Qed.

(** C5, amended.  Whenever the fetch fails, with whatever error, the
    stored raw payload is not replaced: the coordinator is left as it
    was, with the payload of the last successful poll.  When the error
    is of the [GaiaStationApiError] taxonomy the update fails with
    [UpdateFailed], whose message is [Error communicating with API: ]
    followed by the message of the original error; an error outside
    the taxonomy is not converted and reaches the host as it is. *)
Theorem failed_fetch_keeps_snapshot
        (self : GaiaStationDataUpdateCoordinator) (net : exchange) (e : exception) :
  async_get_realtime_data (client self) net = Raise e ->
  snd (_async_update_data self net) = self
  /\ fst (_async_update_data self net)
     = if isinstance_exc e GaiaStationApiError
       then Raise (new_exc UpdateFailed
                     ("Error communicating with API: " ++ exc_str e))
       else Raise e.
Proof.
  intros Hfetch. unfold _async_update_data, _async_update_data_with.
  change (async_get_realtime_data_with Json.loads) with async_get_realtime_data.
  rewrite Hfetch. cbn [fst snd dispatch]. split; reflexivity.
Qed.

Lemma failed_fetch_keeps_snapshot_witness :
  (snd (_async_update_data polled_coordinator TimesOut) = polled_coordinator
   /\ fst (_async_update_data polled_coordinator TimesOut)
      = Raise (new_exc UpdateFailed
                 "Error communicating with API: Timeout connecting to gaia.local"))
  /\
  (snd (_async_update_data polled_coordinator
          (Response 200 (TextRaises (new_exc UnicodeDecodeError
             "'utf-8' codec can't decode byte 0xff in position 0: invalid start byte"))))
   = polled_coordinator
   /\ fst (_async_update_data polled_coordinator
             (Response 200 (TextRaises (new_exc UnicodeDecodeError
                "'utf-8' codec can't decode byte 0xff in position 0: invalid start byte"))))
      = Raise (new_exc UnicodeDecodeError
                 "'utf-8' codec can't decode byte 0xff in position 0: invalid start byte")).
Proof.
  split.
  - apply (failed_fetch_keeps_snapshot polled_coordinator TimesOut
             (new_exc GaiaStationTimeoutError "Timeout connecting to gaia.local")).
    reflexivity.
  - apply (failed_fetch_keeps_snapshot polled_coordinator
             (Response 200 (TextRaises (new_exc UnicodeDecodeError
                "'utf-8' codec can't decode byte 0xff in position 0: invalid start byte")))
             (new_exc UnicodeDecodeError
                "'utf-8' codec can't decode byte 0xff in position 0: invalid start byte")).
    reflexivity.
Defined.

(** X4.  A successful update stores the fetched payload and returns the
    map the transform makes of it; nothing of the payload stored before
    enters the outcome: two coordinators with the same client get the
    same outcome from the same exchange. *)
Theorem update_replaces_snapshot
        (self other : GaiaStationDataUpdateCoordinator) (net : exchange) :
  client self = client other ->
  fst (_async_update_data self net) = fst (_async_update_data other net)
  /\
  forall flat,
    fst (_async_update_data self net) = Return flat ->
    exists payload,
      async_get_realtime_data (client self) net = Return payload
      /\ raw_data (snd (_async_update_data self net)) = payload
      /\ fst (_flatten_data self payload) = Return flat.
Proof.
  intros Hclient. unfold _async_update_data, _async_update_data_with.
  change (async_get_realtime_data_with Json.loads) with async_get_realtime_data.
  rewrite <- Hclient.
  destruct (async_get_realtime_data (client self) net) as [payload|e].
  - cbn [raw_data].
    destruct (dict_get_default "pms" payload (VDict [])) as [| | | | | |pms] eqn:Hpms;
      try (rewrite !flatten_raises by (now rewrite Hpms);
           split; [reflexivity|]; intros flat Hflat; discriminate Hflat).
    rewrite !(flatten_returns _ payload pms Hpms).
    split; [reflexivity|].
    intros flat Hflat. exists payload. repeat split.
    rewrite (flatten_returns self payload pms Hpms). exact Hflat.
  - split; [reflexivity|].
    intros flat Hflat. exfalso. simpl in Hflat.
    destruct (isinstance_exc e GaiaStationApiError); discriminate Hflat.
Qed.

Lemma update_replaces_snapshot_witness :
  fst (_async_update_data polled_coordinator
         (Response 200 (Text ("{" ++ quoted "sys" ++ ": {" ++ quoted "boot" ++ ": 4}}"))))
  = fst (_async_update_data (new_coordinator (new_client "gaia.local"))
           (Response 200 (Text ("{" ++ quoted "sys" ++ ": {" ++ quoted "boot" ++ ": 4}}")))).
Proof.
  apply (update_replaces_snapshot polled_coordinator
           (new_coordinator (new_client "gaia.local"))
           (Response 200 (Text ("{" ++ quoted "sys" ++ ": {" ++ quoted "boot" ++ ": 4}}")))).
  reflexivity.
Defined.

(* ================================================================== *)
(** * Claims about the sensor catalog                                  *)
(* ================================================================== *)

Section DiscoveryFacts.

Lemma in_set_add (x y : string) (s : list string) :
  In x (set_add y s) <-> x = y \/ In x s.
Proof.
  unfold set_add. destruct (existsb (String.eqb y) s) eqn:E.
  - apply existsb_exists in E. destruct E as [z [Hz Ez]].
    apply String.eqb_eq in Ez. subst z.
    split; [tauto|]. intros [->|H]; assumption.
  - rewrite in_app_iff. simpl. intuition congruence.
Qed.

Lemma NoDup_set_add (y : string) (s : list string) :
  NoDup s -> NoDup (set_add y s).
Proof.
  intros Hs. unfold set_add. destruct (existsb (String.eqb y) s) eqn:E; [exact Hs|].
  assert (Hy : ~ In y s).
  { intros Hin. rewrite <- not_true_iff_false in E. apply E.
    apply existsb_exists. exists y. split; [exact Hin | apply String.eqb_refl]. }
  clear E. induction Hs as [|a s Ha Hs IH]; simpl.
  - constructor; [tauto | constructor].
  - constructor.
    + rewrite in_app_iff. simpl. intros [H|[H|[]]]; [tauto|].
      apply Hy. now left.
    + apply IH. intros H. apply Hy. now right.
Qed.

(** The inner loop of the scan, for one key. *)
Let scan_key (discovered : list string) (key : string) : list string :=
  fold_left
    (fun discovered prefix_candidate =>
       if startswith key (prefix_candidate ++ "_")
       then set_add prefix_candidate discovered
       else discovered)
    PREFIX_CANDIDATES discovered.

Let scan_key_in (x key : string) (s : list string) :
  In x (scan_key s key)
  <-> In x s \/ (In x PREFIX_CANDIDATES /\ startswith key (x ++ "_") = true).
Proof.
  unfold scan_key, PREFIX_CANDIDATES. simpl.
  destruct (startswith key "pms1_") eqn:E1;
    destruct (startswith key "pms2_") eqn:E2;
    destruct (startswith key "pms3_") eqn:E3;
    repeat rewrite in_set_add;
    (split;
     [ intuition (subst; auto)
     | intros [H|[Hc Hp]]; [auto|];
       in_cases Hc; simpl in Hp; try congruence; auto ]).
Qed.

Let scan_key_NoDup (key : string) (s : list string) :
  NoDup s -> NoDup (scan_key s key).
Proof.
  intros Hs. unfold scan_key, PREFIX_CANDIDATES. simpl fold_left.
  repeat match goal with
         | |- context [if ?b then _ else _] => destruct b
         end; repeat apply NoDup_set_add; exact Hs.
Qed.

Let scan_in (x : string) (keys : list string) :
  forall s,
    In x (fold_left scan_key keys s)
    <-> In x s \/ (In x PREFIX_CANDIDATES
                   /\ exists k, In k keys /\ startswith k (x ++ "_") = true).
Proof.
  induction keys as [|k keys IH]; intros s; simpl.
  - split; [tauto|]. intros [H|[_ [k [[] _]]]]. exact H.
  - rewrite IH, scan_key_in. split.
    + intros [[H|[Hc Hp]]|[Hc [k' [Hk' Hp]]]]; eauto 7.
    + intros [H|[Hc [k' [[->|Hk'] Hp]]]]; eauto 7.
Qed.

Let scan_NoDup (keys : list string) :
  forall s, NoDup s -> NoDup (fold_left scan_key keys s).
Proof.
  induction keys as [|k keys IH]; intros s Hs; simpl; [exact Hs|].
  apply IH. now apply scan_key_NoDup.
Qed.

(** What the scan collects: the candidates that have a key. *)
Lemma discover_groups_in (data : dict) (x : string) :
  In x (discover_groups data)
  <-> In x PREFIX_CANDIDATES /\ group_present data x = true.
Proof.
  unfold discover_groups. fold scan_key. rewrite scan_in.
  unfold group_present. rewrite existsb_exists. simpl. tauto.
Qed.

Lemma discover_groups_NoDup (data : dict) : NoDup (discover_groups data).
Proof.
  unfold discover_groups. fold scan_key. apply scan_NoDup. constructor.
Qed.

(** Sorting a set of candidates lists the candidates it holds, in
    the candidates' order, whatever order the set is iterated in. *)
Lemma sorted_candidates (s : list string) :
  NoDup s -> (forall x, In x s -> In x PREFIX_CANDIDATES) ->
  sorted s = filter (fun c => existsb (String.eqb c) s) PREFIX_CANDIDATES.
Proof.
  induction 1 as [|x s Hx Hs IH]; intros Hsub; [reflexivity|].
  assert (Hxc : In x PREFIX_CANDIDATES) by (apply Hsub; now left).
  assert (Hmem : existsb (String.eqb x) s = false).
  { apply not_true_iff_false. intros E. apply existsb_exists in E.
    destruct E as [z [Hz Ez]]. apply String.eqb_eq in Ez. now subst z. }
  unfold sorted in *. simpl fold_right.
  rewrite IH by (intros; apply Hsub; now right).
  unfold PREFIX_CANDIDATES in *. cbn [filter existsb].
  in_cases Hxc; rewrite Hmem;
    destruct (existsb (String.eqb "pms1") s);
    destruct (existsb (String.eqb "pms2") s);
    destruct (existsb (String.eqb "pms3") s);
    try discriminate; reflexivity.
Qed.

(** The groups the loop runs over: the candidates, in their order,
    that a key of the map starts with. *)
Lemma sorted_discover_groups (data : dict) :
  sorted (discover_groups data) = filter (group_present data) PREFIX_CANDIDATES.
Proof.
  rewrite sorted_candidates.
  - apply filter_ext_in. intros c Hc.
    destruct (group_present data c) eqn:E.
    + apply existsb_exists. exists c. split; [|apply String.eqb_refl].
      apply discover_groups_in. auto.
    + apply not_true_iff_false. intros H. apply existsb_exists in H.
      destruct H as [z [Hz Ez]]. apply String.eqb_eq in Ez. subst z.
      apply discover_groups_in in Hz. destruct Hz. congruence.
  - apply discover_groups_NoDup.
  - intros x Hx. now apply discover_groups_in in Hx.
Qed.

End DiscoveryFacts.

Section BuilderFacts.

Lemma flat_map_if_map {A B : Type} (f : A -> B) (p : B -> bool) (l : list A) :
  flat_map (fun x => if p (f x) then [f x] else []) l = filter p (map f l).
Proof.
  induction l as [|a l IH]; simpl; [reflexivity|].
  rewrite IH. now destruct (p (f a)).
Qed.

Lemma filter_of_flat_map {A B : Type} (f : A -> list B) (p : B -> bool) (l : list A) :
  filter p (flat_map f l) = flat_map (fun x => filter p (f x)) l.
Proof.
  induction l as [|a l IH]; simpl; [reflexivity|].
  now rewrite filter_app, IH.
Qed.

Lemma flat_map_filter_empty {A B : Type} (f : A -> list B) (p : A -> bool)
      (l : list A) :
  (forall x, In x l -> p x = false -> f x = []) ->
  flat_map f (filter p l) = flat_map f l.
Proof.
  induction l as [|a l IH]; intros H; simpl; [reflexivity|].
  destruct (p a) eqn:E; simpl.
  - rewrite IH; [reflexivity|]. intros; apply H; auto. now right.
  - rewrite (H a) by (auto; now left). simpl.
    apply IH. intros; apply H; auto. now right.
Qed.

Lemma filter_none {A : Type} (p : A -> bool) (l : list A) :
  (forall x, In x l -> p x = false) -> filter p l = [].
Proof.
  induction l as [|a l IH]; intros H; simpl; [reflexivity|].
  rewrite (H a) by now left. apply IH. intros; apply H. now right.
Qed.

Variable data : dict.

(** The map has the key of the description. *)
Let present (d : GaiaStationSensorEntityDescription) : bool :=
  dict_contains (key d) data.

(** The loop body for one group appends the group's descriptions
    whose keys the map has. *)
Lemma group_sensors (group : string) :
  flat_map (channel_sensors data group) pm_configs
  = filter present (group_descriptions group).
Proof.
  unfold group_descriptions. rewrite filter_of_flat_map.
  apply flat_map_ext. intros config.
  unfold channel_sensors.
  apply (flat_map_if_map (dynamic_description group config) present).
Qed.

(** The key of a group's description starts with the group's prefix. *)
Lemma group_description_prefix (group : string)
      (d : GaiaStationSensorEntityDescription) :
  In group PREFIX_CANDIDATES -> In d (group_descriptions group) ->
  startswith (key d) (group ++ "_") = true.
Proof.
  intros Hg Hd. unfold PREFIX_CANDIDATES in Hg.
  in_cases Hg;
    cbv [group_descriptions pm_configs stat_variants flat_map map app] in Hd;
    in_cases Hd; reflexivity.
Qed.

(** A candidate without a key in the map would give no description. *)
Lemma absent_group_no_sensors (group : string) :
  In group PREFIX_CANDIDATES -> group_present data group = false ->
  filter present (group_descriptions group) = [].
Proof.
  intros Hg Habsent. apply filter_none. intros d Hd.
  apply not_true_iff_false. intros Hp.
  apply dict_contains_keys in Hp.
  rewrite <- not_true_iff_false in Habsent. apply Habsent.
  apply existsb_exists. exists (key d). split; [exact Hp|].
  now apply group_description_prefix.
Qed.

(** The builder returns the candidate descriptions whose keys the map
    has, in the candidates' order. *)
Lemma build_dynamic_is_filter :
  _build_dynamic_pms_sensors data = filter present ALL_DYNAMIC_SENSORS.
Proof.
  unfold _build_dynamic_pms_sensors, ALL_DYNAMIC_SENSORS.
  rewrite sorted_discover_groups, filter_of_flat_map.
  rewrite flat_map_filter_empty.
  - apply flat_map_ext. intros group. apply group_sensors.
  - intros group Hg Habsent. rewrite group_sensors.
    now apply absent_group_no_sensors.
Qed.

(** Every description the builder returns has its key in the map. *)
Lemma build_dynamic_present (d : GaiaStationSensorEntityDescription) :
  In d (_build_dynamic_pms_sensors data) -> dict_contains (key d) data = true.
Proof.
  rewrite build_dynamic_is_filter. intros H. now apply filter_In in H.
Qed.

End BuilderFacts.

(** C6.  Discovery considers exactly the prefixes [pms1], [pms2],
    [pms3]: the groups it runs over are those of the three that some
    key of the map starts with, in sorted order, whatever other keys
    the map has; the descriptions it returns are those of the three
    groups' descriptions whose key is in the map; and the keys of a
    group's descriptions are those of its three channels and five stat
    fields.  For a map that holds [pms2_pm10_min], no key starting with
    [pms1_] or [pms3_], and no other key of the [pms2] descriptions,
    the one group is [pms2] and the one description is that of
    [pms2_pm10_min], not the five stat variants. *)
Theorem dynamic_discovery (data : dict) :
  sorted (discover_groups data) = filter (group_present data) ["pms1"; "pms2"; "pms3"]
  /\
  _build_dynamic_pms_sensors data
  = filter (fun d => dict_contains (key d) data)
           (flat_map group_descriptions ["pms1"; "pms2"; "pms3"])
  /\
  (forall group,
      map key (group_descriptions group)
      = flat_map
          (fun channel =>
             map (fun stat => group ++ "_" ++ channel ++ "_" ++ stat)%string
                 ["latest"; "mean"; "min"; "max"; "median"])
          ["pm25"; "pm1"; "pm10"])
  /\
  (dict_contains "pms2_pm10_min" data = true ->
   group_present data "pms1" = false ->
   group_present data "pms3" = false ->
   (forall d, In d (group_descriptions "pms2") ->
              dict_contains (key d) data = true -> key d = "pms2_pm10_min") ->
   sorted (discover_groups data) = ["pms2"]
   /\ _build_dynamic_pms_sensors data = [pms2_pm10_min_description]).
Proof.
  split; [exact (sorted_discover_groups data)|].
  split; [exact (build_dynamic_is_filter data)|].
  split; [intros group; reflexivity|].
  intros Hkey H1 H3 Honly.
  assert (H2 : group_present data "pms2" = true).
  { apply existsb_exists. exists "pms2_pm10_min".
    split; [now apply dict_contains_keys | reflexivity]. }
  split.
  - rewrite sorted_discover_groups. unfold PREFIX_CANDIDATES. cbn [filter].
    now rewrite H1, H2, H3.
  - rewrite build_dynamic_is_filter. unfold ALL_DYNAMIC_SENSORS, PREFIX_CANDIDATES.
    cbn [flat_map]. rewrite !filter_app.
    rewrite (absent_group_no_sensors data "pms1") by (simpl; auto).
    rewrite (absent_group_no_sensors data "pms3") by (simpl; auto).
    cbn [filter app]. rewrite app_nil_r.
    rewrite (filter_ext_in _ (fun d => String.eqb (key d) "pms2_pm10_min")).
    + reflexivity.
    + intros d Hd. destruct (dict_contains (key d) data) eqn:E.
      * symmetry. apply String.eqb_eq. now apply Honly.
      * symmetry. apply String.eqb_neq. intros Heq. congruence.
Qed.

Lemma dynamic_discovery_witness :
  (sorted (discover_groups [("pms2_pm10_min", VFloat "4.2"); ("co2_latest", VInt 415)])
   = ["pms2"]
   /\ _build_dynamic_pms_sensors
        [("pms2_pm10_min", VFloat "4.2"); ("co2_latest", VInt 415)]
      = [pms2_pm10_min_description])
  /\
  (sorted (discover_groups
             [("pms3_pm1_max", VInt 2); ("pms4_pm25_latest", VInt 9);
              ("pms1_pm25_latest", VInt 5); ("pms1_pm25_stddev", VInt 1)])
   = ["pms1"; "pms3"]
   /\ map key (_build_dynamic_pms_sensors
                 [("pms3_pm1_max", VInt 2); ("pms4_pm25_latest", VInt 9);
                  ("pms1_pm25_latest", VInt 5); ("pms1_pm25_stddev", VInt 1)])
      = ["pms1_pm25_latest"; "pms3_pm1_max"]).
Proof.
  split.
  - apply (proj2 (proj2 (proj2 (dynamic_discovery
             [("pms2_pm10_min", VFloat "4.2"); ("co2_latest", VInt 415)]))));
      try reflexivity.
    intros d Hd.
    cbv [group_descriptions pm_configs stat_variants flat_map map app] in Hd.
    in_cases Hd; intros H; first [reflexivity | discriminate H].
  - split.
    + rewrite (proj1 (dynamic_discovery
                 [("pms3_pm1_max", VInt 2); ("pms4_pm25_latest", VInt 9);
                  ("pms1_pm25_latest", VInt 5); ("pms1_pm25_stddev", VInt 1)])).
      reflexivity.
    + rewrite (proj1 (proj2 (dynamic_discovery
                 [("pms3_pm1_max", VInt 2); ("pms4_pm25_latest", VInt 9);
                  ("pms1_pm25_latest", VInt 5); ("pms1_pm25_stddev", VInt 1)]))).
      reflexivity.
Defined.

(** C8.  For a description of the static catalog, setup creates an
    entity with that description exactly when the description's key is
    a key of the map held at setup time ([coordinator.data], or the
    empty map when there is none): the entity is the one built from the
    description and the entry, and without the key no entity of the
    list has the description. *)
Theorem static_setup_key_gated (coordinator_data : option dict) (entry : ConfigEntry)
        (d : GaiaStationSensorEntityDescription) :
  In d ALL_STATIC_SENSORS ->
  ((exists e, In e (async_setup_entry coordinator_data entry)
              /\ entity_description e = d)
   <-> dict_contains (key d) (data_or_empty coordinator_data) = true)
  /\
  (dict_contains (key d) (data_or_empty coordinator_data) = true ->
   In (new_sensor d entry) (async_setup_entry coordinator_data entry)).
Proof.
  intros Hd.
  assert (Hcreate : dict_contains (key d) (data_or_empty coordinator_data) = true ->
                    In (new_sensor d entry) (async_setup_entry coordinator_data entry)).
  { intros Hk. unfold async_setup_entry. apply in_or_app. left.
    apply in_flat_map. exists d. split; [exact Hd|]. rewrite Hk. now left. }
  split; [|exact Hcreate]. split.
  - intros [e [He Hdesc]]. unfold async_setup_entry in He.
    apply in_app_or in He. destruct He as [He|He].
    + apply in_flat_map in He. destruct He as [d' [_ He]].
      destruct (dict_contains (key d') (data_or_empty coordinator_data)) eqn:E;
        [|destruct He].
      destruct He as [<-|[]]. simpl in Hdesc. now subst d'.
    + apply in_map_iff in He. destruct He as [d' [<- Hd']].
      simpl in Hdesc. subst d'. now apply build_dynamic_present.
  - intros Hk. exists (new_sensor d entry). split; [now apply Hcreate | reflexivity].
Qed.

Lemma static_setup_key_gated_witness :
  In (new_sensor (Description "co2_latest" "CO₂"
                    (Some CONCENTRATION_PARTS_PER_MILLION) (Some CO2) (Some MEASUREMENT)
                    (getter "co2_latest") "mdi:molecule-co2" true None)
                 {| entry_id := "01J"; title := "GAIA" |})
     (async_setup_entry (Some [("co2_latest", VInt 415)])
                        {| entry_id := "01J"; title := "GAIA" |}).
Proof.
  apply (proj2 (static_setup_key_gated (Some [("co2_latest", VInt 415)])
                  {| entry_id := "01J"; title := "GAIA" |}
                  (Description "co2_latest" "CO₂"
                     (Some CONCENTRATION_PARTS_PER_MILLION) (Some CO2) (Some MEASUREMENT)
                     (getter "co2_latest") "mdi:molecule-co2" true None)
                  ltac:(simpl; tauto))).
  reflexivity.
Defined.

Section EntityFacts.

Variables (coordinator_data : option dict) (entry : ConfigEntry).

(** Every entity comes from a description of the static catalog or of
    the candidates of the dynamic groups. *)
Lemma setup_entity_origin (e : GaiaStationSensor) :
  In e (async_setup_entry coordinator_data entry) ->
  exists d,
    e = new_sensor d entry
    /\ (In d ALL_STATIC_SENSORS \/ In d ALL_DYNAMIC_SENSORS)
    /\ dict_contains (key d) (data_or_empty coordinator_data) = true.
Proof.
  unfold async_setup_entry. intros He.
  apply in_app_or in He. destruct He as [He|He].
  - apply in_flat_map in He. destruct He as [d [Hd He]].
    destruct (dict_contains (key d) (data_or_empty coordinator_data)) eqn:E;
      [|destruct He].
    destruct He as [<-|[]]. exists d. auto.
  - apply in_map_iff in He. destruct He as [d [<- Hd]].
    rewrite build_dynamic_is_filter in Hd. apply filter_In in Hd.
    exists d. tauto.
Qed.

(** The accessor of every description reads the description's own key. *)
Lemma value_fn_reads_key (d : GaiaStationSensorEntityDescription) :
  In d ALL_STATIC_SENSORS \/ In d ALL_DYNAMIC_SENSORS ->
  value_fn d = getter (key d).
Proof.
  intros [Hd|Hd].
  - cbv [ALL_STATIC_SENSORS ROLLING_PM_SENSORS CO2_SENSORS MET_SENSORS
         SYSTEM_SENSORS app] in Hd.
    in_cases Hd; reflexivity.
  - cbv [ALL_DYNAMIC_SENSORS PREFIX_CANDIDATES group_descriptions pm_configs
         stat_variants flat_map map app] in Hd.
    in_cases Hd; reflexivity.
Qed.

End EntityFacts.

(** X3.  The invariant of the data model: the key of every sensor that setup
    creates is a key of the map held at setup time; and the value of a
    sensor at a later refresh is the value at that key in the refreshed
    map, or none when the key is missing or there is no map. *)
Theorem sensor_key_and_value (coordinator_data : option dict) (entry : ConfigEntry)
        (e : GaiaStationSensor) :
  In e (async_setup_entry coordinator_data entry) ->
  dict_contains (key (entity_description e)) (data_or_empty coordinator_data) = true
  /\ _attr_unique_id e = (entry_id entry ++ "_" ++ key (entity_description e))%string
  /\ native_value e None = None
  /\ forall latest,
       native_value e (Some latest) = dict_get (key (entity_description e)) latest.
Proof.
  intros He. apply setup_entity_origin in He.
  destruct He as [d [-> [Horigin Hkey]]]. simpl.
  repeat split; auto.
  intros latest. unfold native_value. simpl.
  now rewrite (value_fn_reads_key d Horigin).
Qed.

Lemma sensor_key_and_value_witness :
  native_value
    (new_sensor pms2_pm10_min_description {| entry_id := "01J"; title := "GAIA" |})
    (Some [("co2_latest", VInt 415); ("pms2_pm10_min", VFloat "3.9")])
  = Some (VFloat "3.9").
Proof.
  apply (sensor_key_and_value
           (Some [("pms2_pm10_min", VFloat "4.2")])
           {| entry_id := "01J"; title := "GAIA" |}
           (new_sensor pms2_pm10_min_description {| entry_id := "01J"; title := "GAIA" |})).
  simpl. tauto.
Defined.

(* ================================================================== *)
(** * The transform as a list of writes                                *)
(* ================================================================== *)

Section WriteFacts.

Lemma apply_writes_app (l l' : list (string * value)) (flat : dict) :
  apply_writes (l ++ l') flat = apply_writes l' (apply_writes l flat).
Proof. apply fold_left_app. Qed.

Lemma fold_as_writes {C : Type} (step : dict -> C -> dict)
      (w : C -> list (string * value)) (l : list C) :
  (forall flat x, step flat x = apply_writes (w x) flat) ->
  forall flat, fold_left step l flat = apply_writes (flat_map w l) flat.
Proof.
  intros Hstep. induction l as [|x l IH]; intros flat; simpl; [reflexivity|].
  now rewrite apply_writes_app, IH, Hstep.
Qed.

Lemma emit_stats_writes (prefix : string) (block flat : dict) :
  emit_stats prefix block flat = apply_writes (stat_writes prefix block) flat.
Proof.
  unfold emit_stats, stat_writes. apply fold_as_writes.
  intros f s. now destruct (dict_get s block).
Qed.

Lemma emit_particles_writes (head : string) (group flat : dict) :
  emit_particles head group flat = apply_writes (particle_writes head group) flat.
Proof.
  unfold emit_particles, particle_writes. apply fold_as_writes.
  intros f c. destruct (dict_get c group) as [[]|]; try reflexivity.
  apply emit_stats_writes.
Qed.

Lemma emit_groups_writes (pms flat : dict) :
  emit_groups pms flat = apply_writes (group_writes pms) flat.
Proof.
  unfold emit_groups, group_writes. apply fold_as_writes.
  intros f [g gd].
  destruct (String.eqb g "historic" || String.eqb g "rolling"); [reflexivity|].
  destruct gd; try reflexivity. apply emit_particles_writes.
Qed.

Lemma emit_rolling_writes (pms flat : dict) :
  emit_rolling pms flat = apply_writes (rolling_writes pms) flat.
Proof.
  unfold emit_rolling, rolling_writes.
  destruct (dict_get_default "rolling" pms (VDict [])); try reflexivity.
  apply emit_particles_writes.
Qed.

Lemma emit_co2_writes (data flat : dict) :
  emit_co2 data flat = apply_writes (co2_writes data) flat.
Proof.
  unfold emit_co2, co2_writes.
  destruct (dict_get_default "co2" data (VDict [])) as [| | | | | |co2];
    try reflexivity.
  destruct (dict_get "rolling" co2) as [[]|]; try reflexivity.
  apply emit_stats_writes.
Qed.

Lemma emit_met_writes (data flat : dict) :
  emit_met data flat = apply_writes (met_writes data) flat.
Proof.
  unfold emit_met, met_writes.
  destruct (dict_get_default "met" data (VDict [])) as [| | | | | |met];
    try reflexivity.
  apply fold_as_writes. intros f mt.
  destruct (dict_get mt met) as [[]|]; try reflexivity.
  apply emit_stats_writes.
Qed.

Lemma emit_sys_writes (data flat : dict) :
  emit_sys data flat = apply_writes (sys_writes data) flat.
Proof.
  unfold emit_sys, sys_writes.
  destruct (dict_get_default "sys" data (VDict [])) as [| | | | | |sys_data];
    try reflexivity.
  apply fold_as_writes. intros f k. now destruct (dict_get k sys_data).
Qed.

(** The transform performs the writes of the five blocks, in order. *)
Lemma flatten_as_writes (self : GaiaStationDataUpdateCoordinator) (data pms : dict) :
  dict_get_default "pms" data (VDict []) = VDict pms ->
  fst (_flatten_data self data) = Return (apply_writes (all_writes data pms) []).
Proof.
  intros Hpms. rewrite (flatten_returns self data pms Hpms). simpl. f_equal.
  unfold all_writes. rewrite !apply_writes_app.
  now rewrite emit_sys_writes, emit_met_writes, emit_co2_writes,
    emit_rolling_writes, emit_groups_writes.
Qed.

(** A binding of the result comes from a write or was there before. *)
Lemma dict_get_set_inv (K k : string) (v w : value) (d : dict) :
  dict_get K (dict_set k w d) = Some v ->
  (K = k /\ v = w) \/ dict_get K d = Some v.
Proof.
  destruct (string_dec K k) as [->|Hne].
  - rewrite dict_get_set_same. intros H. injection H as <-. now left.
  - rewrite dict_get_set_other by assumption. now right.
Qed.

Lemma apply_writes_sound (l : list (string * value)) :
  forall flat K v,
    dict_get K (apply_writes l flat) = Some v ->
    In (K, v) l \/ dict_get K flat = Some v.
Proof.
  induction l as [|[k w] l IH]; intros flat K v H; simpl in *; [now right|].
  apply IH in H. destruct H as [H|H]; [left; now right|].
  apply dict_get_set_inv in H. destruct H as [[-> ->]|H]; [left; now left | now right].
Qed.

(** A written key whose writes all carry the same value ends up bound
    to it. *)
Lemma apply_writes_complete (l : list (string * value)) :
  forall flat K v,
    In (K, v) l -> (forall v', In (K, v') l -> v' = v) ->
    dict_get K (apply_writes l flat) = Some v.
Proof.
  induction l as [|[k w] l IH]; intros flat K v Hin Hfun; simpl in *; [destruct Hin|].
  destruct (in_dec string_dec K (map fst l)) as [Hlater|Hnot].
  - apply in_map_iff in Hlater. destruct Hlater as [[k' v'] [Hk Hin']].
    simpl in Hk. subst k'.
    assert (v' = v) by (apply Hfun; now right). subst v'.
    apply IH; [exact Hin'|]. intros; apply Hfun; now right.
  - destruct Hin as [Heq|Hin].
    + injection Heq as -> ->.
      assert (Hkeep : forall l' d, ~ In K (map fst l') ->
                dict_get K (apply_writes l' d) = dict_get K d).
      { clear. induction l' as [|[k w] l' IH']; intros d Hn; simpl in *; [reflexivity|].
        rewrite IH' by tauto. apply dict_get_set_other. intros ->. tauto. }
      rewrite Hkeep by assumption. apply dict_get_set_same.
    + exfalso. apply Hnot. apply in_map_iff. now exists (K, v).
Qed.

Lemma dict_set_keys (k : string) (v : value) (d : dict) :
  NoDup (dict_keys d) -> NoDup (dict_keys (dict_set k v d)).
Proof.
  unfold dict_keys. induction d as [|[k' v'] d IH]; simpl; intros Hd.
  - constructor; [tauto | constructor].
  - inversion_clear Hd as [|? ? Hk' Hd'].
    destruct (String.eqb k k') eqn:E; simpl; constructor; auto.
    intros Hin. apply Hk'.
    assert (Hsub : forall x, In x (map fst (dict_set k v d)) -> x = k \/ In x (map fst d)).
    { clear. induction d as [|[a b] d IHd]; simpl; intros x Hx.
      - destruct Hx as [<-|[]]. now left.
      - destruct (String.eqb k a) eqn:E; simpl in Hx.
        + destruct Hx as [<-|Hx]; [right; now left | right; now right].
        + destruct Hx as [<-|Hx]; [right; now left|].
          apply IHd in Hx. tauto. }
    apply Hsub in Hin. destruct Hin as [->|Hin]; [|exact Hin].
    rewrite String.eqb_refl in E. discriminate.
Qed.

Lemma apply_writes_keys (l : list (string * value)) :
  forall flat, NoDup (dict_keys flat) -> NoDup (dict_keys (apply_writes l flat)).
Proof.
  induction l as [|[k w] l IH]; intros flat H; simpl; [exact H|].
  apply IH. now apply dict_set_keys.
Qed.

End WriteFacts.

Section StringFacts.

Lemma append_assoc (a b c : string) : ((a ++ b) ++ c = a ++ b ++ c)%string.
Proof. induction a as [|x a IH]; simpl; [reflexivity | now rewrite IH]. Qed.

Lemma length_append (a b : string) :
  String.length (a ++ b) = String.length a + String.length b.
Proof. induction a as [|x a IH]; simpl; [reflexivity | now rewrite IH]. Qed.

Lemma substring_whole (x : string) : String.substring 0 (String.length x) x = x.
Proof. induction x as [|c x IH]; simpl; [reflexivity | now rewrite IH]. Qed.

Lemma substring_append_tail (g x : string) :
  String.substring (String.length g) (String.length x) (g ++ x) = x.
Proof. induction g as [|c g IH]; simpl; [apply substring_whole | exact IH]. Qed.

Lemma is_suffix_append (g x : string) : is_suffix x (g ++ x) = true.
Proof.
  unfold is_suffix. rewrite length_append.
  replace (String.length g + String.length x - String.length x)
    with (String.length g) by lia.
  rewrite substring_append_tail, String.eqb_refl.
  apply andb_true_iff. split; [apply Nat.leb_le; lia | reflexivity].
Qed.

(** Two ways of cutting a string: one tail is a suffix of the other. *)
Lemma append_eq_suffix (g g' x x' : string) :
  (g ++ x = g' ++ x')%string -> is_suffix x x' = true \/ is_suffix x' x = true.
Proof.
  revert g'. induction g as [|c g IH]; intros g' H; simpl in H.
  - right. subst x. apply is_suffix_append.
  - destruct g' as [|c' g']; simpl in H.
    + left. subst x'. apply (is_suffix_append (String c g)).
    + injection H as _ H. now apply IH in H.
Qed.

Lemma append_inv_tail (g g' x : string) : (g ++ x = g' ++ x)%string -> g = g'.
Proof.
  revert g'. induction g as [|c g IH]; intros g' H.
  - destruct g' as [|c' g']; [reflexivity|].
    apply (f_equal String.length) in H. simpl in H. rewrite length_append in H. lia.
  - destruct g' as [|c' g'].
    + apply (f_equal String.length) in H. simpl in H. rewrite length_append in H. lia.
    + simpl in H. injection H as -> H. f_equal. now apply IH.
Qed.

End StringFacts.

Section KeyFacts.

Lemma group_tail_in (c s : string) :
  In c PARTICLE_TYPES -> In s STAT_KEYS -> In ("_" ++ c ++ "_" ++ s)%string GROUP_TAILS.
Proof.
  intros Hc Hs. unfold GROUP_TAILS. apply in_flat_map. exists c. split; [exact Hc|].
  apply in_map_iff. now exists s.
Qed.

Lemma group_tails_apart (x x' : string) :
  In x GROUP_TAILS -> In x' GROUP_TAILS -> is_suffix x x' = true -> x = x'.
Proof.
  assert (Htable :
    forallb (fun a => forallb (fun b => implb (is_suffix a b) (String.eqb a b))
                        GROUP_TAILS) GROUP_TAILS = true) by (vm_compute; reflexivity).
  intros Hx Hx' Hs. rewrite forallb_forall in Htable.
  specialize (Htable x Hx). rewrite forallb_forall in Htable.
  specialize (Htable x' Hx'). rewrite Hs in Htable. now apply String.eqb_eq.
Qed.

Lemma group_tail_not_fixed (x w : string) :
  In x GROUP_TAILS -> In w FIXED_KEYS -> is_suffix x w = false.
Proof.
  assert (Htable :
    forallb (fun a => forallb (fun b => negb (is_suffix a b)) FIXED_KEYS)
            GROUP_TAILS = true) by (vm_compute; reflexivity).
  intros Hx Hw. rewrite forallb_forall in Htable.
  specialize (Htable x Hx). rewrite forallb_forall in Htable.
  specialize (Htable w Hw). now apply negb_true_iff.
Qed.

(** The key of a group determines the group, the channel and the stat
    field. *)
Lemma group_key_inj (g g' c c' s s' : string) :
  In c PARTICLE_TYPES -> In c' PARTICLE_TYPES -> In s STAT_KEYS -> In s' STAT_KEYS ->
  (g ++ "_" ++ c ++ "_" ++ s = g' ++ "_" ++ c' ++ "_" ++ s')%string ->
  g = g' /\ c = c' /\ s = s'.
Proof.
  intros Hc Hc' Hs Hs' H.
  assert (Htail : ("_" ++ c ++ "_" ++ s)%string = ("_" ++ c' ++ "_" ++ s')%string).
  { destruct (append_eq_suffix _ _ _ _ H) as [E|E].
    - apply group_tails_apart in E; auto using group_tail_in.
    - apply group_tails_apart in E; auto using group_tail_in. }
  rewrite Htail in H. apply append_inv_tail in H. split; [exact H|].
  apply (append_inj_l "_") in Htail.
  unfold PARTICLE_TYPES in Hc, Hc'. in_cases Hc; in_cases Hc';
    simpl in Htail; try discriminate Htail.
  - apply (append_inj_l "pm25_") in Htail. auto.
  - apply (append_inj_l "pm1_") in Htail. auto.
  - apply (append_inj_l "pm10_") in Htail. auto.
Qed.

(** No key of a group is a key of the [co2], [met] or [sys] block. *)
Lemma group_key_not_fixed (g c s w : string) :
  In c PARTICLE_TYPES -> In s STAT_KEYS -> In w FIXED_KEYS ->
  (g ++ "_" ++ c ++ "_" ++ s)%string <> w.
Proof.
  intros Hc Hs Hw H.
  pose proof (is_suffix_append g ("_" ++ c ++ "_" ++ s)) as E.
  rewrite H in E. rewrite group_tail_not_fixed in E; auto using group_tail_in.
  discriminate.
Qed.

End KeyFacts.

Section EmittedFacts.

Variables (data pms : dict).
Hypothesis Hpms : dict_get_default "pms" data (VDict []) = VDict pms.

Lemma in_stat_writes (prefix : string) (block : dict) (K : string) (v : value) :
  In (K, v) (stat_writes prefix block)
  <-> exists s, In s STAT_KEYS /\ dict_get s block = Some v
                /\ K = (prefix ++ "_" ++ s)%string.
Proof.
  unfold stat_writes. rewrite in_flat_map. split.
  - intros [s [Hs Hin]]. exists s. destruct (dict_get s block) as [w|]; [|destruct Hin].
    destruct Hin as [H|[]]. injection H as <- <-. auto.
  - intros [s [Hs [Hget ->]]]. exists s. rewrite Hget. split; [exact Hs | now left].
Qed.

Lemma in_particle_writes (head : string) (group : dict) (K : string) (v : value) :
  In (K, v) (particle_writes head group)
  <-> exists c pd s,
        In c PARTICLE_TYPES /\ dict_get c group = Some (VDict pd)
        /\ In s STAT_KEYS /\ dict_get s pd = Some v
        /\ K = (head ++ "_" ++ c ++ "_" ++ s)%string.
Proof.
  unfold particle_writes. rewrite in_flat_map. split.
  - intros [c [Hc Hin]]. destruct (dict_get c group) as [[| | | | | |pd]|] eqn:E;
      try destruct Hin.
    apply in_stat_writes in Hin. destruct Hin as [s [Hs [Hget ->]]].
    exists c, pd, s. repeat split; auto. rewrite append_assoc. reflexivity.
  - intros [c [pd [s [Hc [Hget [Hs [Hv ->]]]]]]]. exists c. split; [exact Hc|].
    rewrite Hget. apply in_stat_writes. exists s. repeat split; auto.
    rewrite append_assoc. reflexivity.
Qed.

Lemma fixed_co2_in (s : string) : In s STAT_KEYS -> In ("co2_" ++ s)%string FIXED_KEYS.
Proof.
  intros Hs. unfold FIXED_KEYS. apply in_or_app. left.
  apply in_map_iff. now exists s.
Qed.

Lemma fixed_met_in (mt s : string) :
  In mt MET_TYPES -> In s STAT_KEYS -> In (mt ++ "_" ++ s)%string FIXED_KEYS.
Proof.
  intros Hmt Hs. unfold FIXED_KEYS. apply in_or_app. right. apply in_or_app. left.
  apply in_flat_map. exists mt. split; [exact Hmt|]. apply in_map_iff. now exists s.
Qed.

Lemma fixed_sys_in (k : string) : In k SYS_KEYS -> In ("sys_" ++ k)%string FIXED_KEYS.
Proof.
  intros Hk. unfold FIXED_KEYS. apply in_or_app. right. apply in_or_app. right.
  apply in_map_iff. now exists k.
Qed.

(** The writes of the transform are what the rules emit. *)
Lemma all_writes_emitted (K : string) (v : value) :
  In (K, v) (all_writes data pms) <-> emitted data K v.
Proof.
  unfold all_writes. rewrite !in_app_iff. split.
  - intros [H|[H|[H|[H|H]]]].
    + unfold group_writes in H. apply in_flat_map in H.
      destruct H as [[g gd] [Hitem H]].
      destruct (String.eqb g "historic") eqn:E1; [destruct H|].
      destruct (String.eqb g "rolling") eqn:E2; [destruct H|].
      simpl in H. destruct gd as [| | | | | |group]; try destruct H.
      apply in_particle_writes in H.
      destruct H as [c [pd [s [Hc [Hget [Hs [Hv ->]]]]]]].
      apply String.eqb_neq in E1, E2. eapply emitted_group; eauto.
    + unfold rolling_writes, dict_get_default in H.
      destruct (dict_get "rolling" pms) as [[| | | | | |r]|] eqn:E; try destruct H.
      apply in_particle_writes in H.
      destruct H as [c [pd [s [Hc [Hget [Hs [Hv ->]]]]]]].
      eapply emitted_rolling; eauto.
    + unfold co2_writes, dict_get_default in H.
      destruct (dict_get "co2" data) as [[| | | | | |co2]|] eqn:E; try destruct H.
      destruct (dict_get "rolling" co2) as [[| | | | | |r]|] eqn:E'; try destruct H.
      apply in_stat_writes in H. destruct H as [s [Hs [Hget ->]]].
      eapply emitted_co2; eauto.
    + unfold met_writes, dict_get_default in H.
      destruct (dict_get "met" data) as [[| | | | | |met]|] eqn:E; try destruct H.
      apply in_flat_map in H. destruct H as [mt [Hmt H]].
      destruct (dict_get mt met) as [w|] eqn:E'; [|destruct H].
      destruct w as [|b|n|f|str|l|md];
        try (destruct H as [H|[]]; injection H as <- <-;
             eapply emitted_met_scalar; eauto; reflexivity);
        try destruct H.
      apply in_stat_writes in H. destruct H as [s [Hs [Hget ->]]].
      eapply emitted_met_stat; eauto.
    + unfold sys_writes, dict_get_default in H.
      destruct (dict_get "sys" data) as [[| | | | | |sys_data]|] eqn:E; try destruct H.
      apply in_flat_map in H. destruct H as [k [Hk H]].
      destruct (dict_get k sys_data) as [w|] eqn:E'; [|destruct H].
      destruct H as [H|[]]. injection H as <- <-.
      eapply emitted_sys; eauto.
  - intros H. destruct H as
        [pms' g group c pd s v Hp Hitem Hh Hr Hc Hget Hs Hv
        |pms' r c pd s v Hp Hroll Hc Hget Hs Hv
        |co2 r s v Hco2 Hroll Hs Hv
        |met mt md s v Hmet Hmt Hget Hs Hv
        |met mt v Hmet Hmt Hget Hnum
        |sys_data k v Hsys Hk Hv].
    + rewrite Hpms in Hp. injection Hp as <-. left.
      unfold group_writes. apply in_flat_map. exists (g, VDict group).
      split; [exact Hitem|].
      apply String.eqb_neq in Hh, Hr. rewrite Hh, Hr. simpl.
      apply in_particle_writes. exists c, pd, s. auto.
    + rewrite Hpms in Hp. injection Hp as <-. right. left.
      unfold rolling_writes, dict_get_default. rewrite Hroll.
      apply in_particle_writes. exists c, pd, s. auto.
    + right. right. left. unfold co2_writes, dict_get_default. rewrite Hco2, Hroll.
      apply in_stat_writes. exists s. auto.
    + right. right. right. left. unfold met_writes, dict_get_default. rewrite Hmet.
      apply in_flat_map. exists mt. split; [exact Hmt|]. rewrite Hget.
      apply in_stat_writes. exists s. auto.
    + right. right. right. left. unfold met_writes, dict_get_default. rewrite Hmet.
      apply in_flat_map. exists mt. split; [exact Hmt|]. rewrite Hget.
      destruct v; try discriminate Hnum; now left.
    + right. right. right. right. unfold sys_writes, dict_get_default. rewrite Hsys.
      apply in_flat_map. exists k. split; [exact Hk|]. rewrite Hv. now left.
Qed.

Hypothesis Hnodup : NoDup (dict_keys pms).

Lemma item_functional (d : dict) (k : string) (x y : value) :
  NoDup (dict_keys d) -> In (k, x) d -> In (k, y) d -> x = y.
Proof.
  unfold dict_keys. induction d as [|[k' z] d IH]; simpl; intros Hd Hx Hy;
    [destruct Hx|].
  inversion_clear Hd as [|? ? Hk Hd'].
  destruct Hx as [Hx|Hx], Hy as [Hy|Hy].
  - congruence.
  - injection Hx as -> ->. exfalso. apply Hk. apply in_map_iff. now exists (k, y).
  - injection Hy as -> ->. exfalso. apply Hk. apply in_map_iff. now exists (k, x).
  - now apply IH.
Qed.

Lemma fixed_met_latest_in (mt : string) :
  In mt MET_TYPES -> In (mt ++ "_latest")%string FIXED_KEYS.
Proof. intros Hmt. apply (fixed_met_in mt "latest"); [exact Hmt | now left]. Qed.

Ltac not_fixed EK :=
  exfalso;
  first [ eapply group_key_not_fixed; [| | | exact EK]
        | eapply group_key_not_fixed; [| | | symmetry; exact EK]
        | eapply (group_key_not_fixed "rolling"); [| | | exact EK]
        | eapply (group_key_not_fixed "rolling"); [| | | symmetry; exact EK] ];
  eauto using fixed_co2_in, fixed_met_in, fixed_met_latest_in, fixed_sys_in.

(** No key is emitted with two values: the rules do not overlap. *)
Lemma emitted_functional (K : string) (v v' : value) :
  emitted data K v -> emitted data K v' -> v = v'.
Proof.
  intros H H'.
  destruct H as
      [p g group c pd s w Hp Hitem Hh Hr Hc Hget Hs Hv
      |p r c pd s w Hp Hroll Hc Hget Hs Hv
      |co2 r s w Hco2 Hroll Hs Hv
      |met mt md s w Hmet Hmt Hget Hs Hv
      |met mt w Hmet Hmt Hget Hnum
      |sys_data k w Hsys Hk Hv];
    match type of H' with emitted _ ?key _ => remember key as K' eqn:EK in H' end;
    destruct H' as
      [p' g' group' c' pd' s' w' Hp' Hitem' Hh' Hr' Hc' Hget' Hs' Hv'
      |p' r' c' pd' s' w' Hp' Hroll' Hc' Hget' Hs' Hv'
      |co2' r' s' w' Hco2' Hroll' Hs' Hv'
      |met' mt' md' s' w' Hmet' Hmt' Hget' Hs' Hv'
      |met' mt' w' Hmet' Hmt' Hget' Hnum'
      |sys_data' k' w' Hsys' Hk' Hv'].
  all: try (rewrite Hpms in Hp; injection Hp as <-).
  all: try (rewrite Hpms in Hp'; injection Hp' as <-).
  all: try solve [not_fixed EK].
  - (* two sensor groups *)
    destruct (group_key_inj _ _ _ _ _ _ Hc' Hc Hs' Hs EK) as [-> [-> ->]].
    pose proof (item_functional pms g _ _ Hnodup Hitem Hitem') as E.
    injection E as ->. congruence.
  - (* a sensor group and the rolling aggregate *)
    destruct (group_key_inj "rolling" g c' c s' s Hc' Hc Hs' Hs EK) as [E _].
    congruence.
  - destruct (group_key_inj g' "rolling" c' c s' s Hc' Hc Hs' Hs EK) as [E _].
    congruence.
  - (* the rolling aggregate twice *)
    destruct (group_key_inj "rolling" "rolling" c' c s' s Hc' Hc Hs' Hs EK)
      as [_ [-> ->]].
    congruence.
  - apply (append_inj_l "co2_") in EK. subst s'. congruence.
  - exfalso. unfold MET_TYPES in Hmt'. in_cases Hmt'; discriminate EK.
  - exfalso. unfold MET_TYPES in Hmt'. in_cases Hmt'; discriminate EK.
  - discriminate EK.
  - exfalso. unfold MET_TYPES in Hmt. in_cases Hmt; discriminate EK.
  - assert (mt' = mt /\ s' = s) as [-> ->].
    { unfold MET_TYPES in Hmt, Hmt'. in_cases Hmt; in_cases Hmt';
        try discriminate EK.
      - apply (append_inj_l "temperature_") in EK. auto.
      - apply (append_inj_l "humidity_") in EK. auto. }
    congruence.
  - assert (mt' = mt) as ->.
    { unfold MET_TYPES in Hmt, Hmt'. in_cases Hmt; in_cases Hmt';
        try discriminate EK; reflexivity. }
    assert (met' = met) as -> by congruence.
    rewrite Hget in Hget'. injection Hget' as <-. discriminate Hnum'.
  - exfalso. unfold MET_TYPES in Hmt. in_cases Hmt; discriminate EK.
  - exfalso. unfold MET_TYPES in Hmt. in_cases Hmt; discriminate EK.
  - assert (mt' = mt) as ->.
    { unfold MET_TYPES in Hmt, Hmt'. in_cases Hmt; in_cases Hmt';
        try discriminate EK; reflexivity. }
    assert (met' = met) as -> by congruence.
    rewrite Hget' in Hget. injection Hget as <-. discriminate Hnum.
  - assert (mt' = mt) as ->.
    { unfold MET_TYPES in Hmt, Hmt'. in_cases Hmt; in_cases Hmt';
        try discriminate EK; reflexivity. }
    congruence.
  - exfalso. unfold MET_TYPES in Hmt. in_cases Hmt; discriminate EK.
  - discriminate EK.
  - exfalso. unfold MET_TYPES in Hmt'. in_cases Hmt'; discriminate EK.
  - exfalso. unfold MET_TYPES in Hmt'. in_cases Hmt'; discriminate EK.
  - apply (append_inj_l "sys_") in EK. subst k'. congruence.
Qed.

End EmittedFacts.

(** The bindings of the result are those of the emission rules. *)
Lemma flatten_bindings
      (self : GaiaStationDataUpdateCoordinator) (data pms : dict) :
  dict_get_default "pms" data (VDict []) = VDict pms ->
  NoDup (dict_keys pms) ->
  exists flat,
    fst (_flatten_data self data) = Return flat
    /\ NoDup (dict_keys flat)
    /\ forall K v, dict_get K flat = Some v <-> emitted data K v.
Proof.
  intros Hpms Hnodup. exists (apply_writes (all_writes data pms) []).
  split; [now apply flatten_as_writes|].
  split; [apply apply_writes_keys; constructor|].
  intros K v. split.
  - intros H. apply apply_writes_sound in H. destruct H as [H|H]; [|discriminate H].
    now apply (all_writes_emitted data pms Hpms).
  - intros H. apply apply_writes_complete.
    + now apply (all_writes_emitted data pms Hpms).
    + intros v' H'. apply (all_writes_emitted data pms Hpms) in H'.
      exact (emitted_functional data pms Hpms Hnodup K v' v H' H).
Qed.

(** X5.  The transform's result, for a payload whose [pms] is absent or
    an object: the FlatMap has pairwise distinct keys, and a key is
    bound to a value in it exactly when one of the emission rules
    gives the key that value.  No rule's value is overwritten by
    another rule, and nothing else is in the map. *)
Theorem flatten_characterised
        (self : GaiaStationDataUpdateCoordinator) (data pms : dict) :
  dict_get_default "pms" data (VDict []) = VDict pms ->
  NoDup (dict_keys pms) ->
  exists flat,
    fst (_flatten_data self data) = Return flat
    /\ NoDup (dict_keys flat)
    /\ forall K v, dict_get K flat = Some v <-> emitted data K v.
Proof. exact (flatten_bindings self data pms). Qed.

Lemma flatten_characterised_witness :
  exists flat,
    fst (_flatten_data (new_coordinator (new_client "gaia.local")) mixed_payload)
    = Return flat
    /\ NoDup (dict_keys flat)
    /\ forall K v, dict_get K flat = Some v <-> emitted mixed_payload K v.
Proof.
  apply (flatten_characterised (new_coordinator (new_client "gaia.local"))
           mixed_payload
           [("pms1", VDict [("pm25", VDict [("latest", VInt 7)])]);
            ("rolling", VDict [("pm10", VDict [("mean", VInt 3)])])]).
  - reflexivity.
  - repeat constructor; simpl; intuition discriminate.
Defined.

(* ================================================================== *)
(** * How a fetch and an update fail                                   *)
(* ================================================================== *)

Section FailureFacts.

Variables (decode : string -> result value)
          (self : GaiaStationApiClient) (endpoint : string).

(** What the four outer handlers make of an exception. *)
Lemma outer_handlers (e e' : exception) :
  dispatch
    [(TimeoutError,
      fun err : exception =>
        @Raise dict (new_exc GaiaStationTimeoutError
                       ("Timeout connecting to " ++ host self)));
     (ClientConnectionError,
      fun err => Raise (new_exc GaiaStationConnectionError
                          ("Cannot connect to " ++ host self ++ ": " ++ exc_str err)));
     (ClientResponseError,
      fun err => Raise (new_exc GaiaStationApiError
                          ("HTTP " ++ str_of_Z (exc_status err)
                           ++ " error from " ++ (_base_url self ++ endpoint))));
     (ClientError,
      fun err => Raise (new_exc GaiaStationConnectionError
                          ("HTTP error connecting to " ++ host self ++ ": "
                           ++ exc_str err)))] e
  = Raise e' ->
  In (exc_type e') API_ERRORS
  \/ (e' = e /\ isinstance_exc e TimeoutError = false
      /\ isinstance_exc e ClientError = false).
Proof.
  intros H. cbn [dispatch] in H.
  destruct (isinstance_exc e TimeoutError) eqn:E1;
    [injection H as <-; left; simpl; tauto|].
  destruct (isinstance_exc e ClientConnectionError) eqn:E2;
    [injection H as <-; left; simpl; tauto|].
  destruct (isinstance_exc e ClientResponseError) eqn:E3;
    [injection H as <-; left; simpl; tauto|].
  destruct (isinstance_exc e ClientError) eqn:E4;
    [injection H as <-; left; simpl; tauto|].
  injection H as <-. right. auto.
Qed.

(** The classes of the API taxonomy are no client errors and no
    timeouts. *)
Lemma api_errors_apart (c : exc_class) :
  In c API_ERRORS ->
  issubclass c TimeoutError = false /\ issubclass c ClientError = false.
Proof.
  unfold API_ERRORS. intros H. in_cases H; split; reflexivity.
Qed.

(** The ways in which a fetch fails, whatever the decoder does. *)
Lemma fetch_failure (net : exchange) (e : exception) :
  async_get_data_with decode self endpoint net = Raise e ->
  (In (exc_type e) API_ERRORS
   \/ fails_on_non_object decode net e
   \/ raised_by net = Some e
   \/ raised_by_decoder decode net e)
  /\ isinstance_exc e TimeoutError = false
  /\ isinstance_exc e ClientError = false.
Proof.
  unfold async_get_data_with. destruct net as [|e0|status [e0|text]].
  - intros H. injection H as <-. split; [left; simpl; tauto | split; reflexivity].
  - cbn [session_get bind try_except]. intros H.
    apply outer_handlers in H. destruct H as [H|[-> H]].
    + split; [now left | now apply api_errors_apart].
    + split; [right; right; now left | exact H].
  - cbn [session_get bind fst snd]. unfold raise_for_status.
    destruct (ok status).
    + cbn [bind response_text try_except]. intros H.
      apply outer_handlers in H. destruct H as [H|[-> H]].
      * split; [now left | now apply api_errors_apart].
      * split; [right; right; now left | exact H].
    + cbn [bind try_except]. intros H. injection H as <-.
      split; [left; simpl; tauto | split; reflexivity].
  - cbn [session_get bind fst snd]. unfold raise_for_status.
    destruct (ok status) eqn:Hok.
    + cbn [bind response_text].
      destruct (decode text) as [v|e0] eqn:Hv.
      * cbn [bind].
        destruct v; cbn [try_except dispatch];
          try (intros H; discriminate H);
          intros H; injection H as <-;
          (split; [|split; reflexivity]);
          right; left; eexists; eexists; eexists;
          (split; [reflexivity|]); (split; [exact Hv|]); split; reflexivity.
      * cbn [bind try_except dispatch].
        destruct (isinstance_exc e0 JSONDecodeError) eqn:Hjson.
        -- cbn [dispatch]. intros H. injection H as <-.
           split; [left; simpl; tauto | split; reflexivity].
        -- intros H. apply outer_handlers in H. destruct H as [H|[-> H]].
           ++ split; [now left | now apply api_errors_apart].
           ++ split; [|exact H]. right. right. right.
              exists status, text. auto.
    + cbn [bind try_except]. intros H. injection H as <-.
      split; [left; simpl; tauto | split; reflexivity].
Qed.

End FailureFacts.

(** The classes that the orchestrator's handler takes. *)
Lemma api_errors_handled (c : exc_class) :
  In c API_ERRORS -> issubclass c GaiaStationApiError = true.
Proof. unfold API_ERRORS. intros H. in_cases H; reflexivity. Qed.

(** X6.  How a fetch can fail, for every behaviour of the network and
    of the decoder.  The error that leaves the fetch is one of four: an
    error of the API taxonomy built by a handler; the [ValueError] that
    the fetch raises for a decoded body that is no object; the
    exception that the request or the body read raised, passed on
    unchanged; or an exception of the decoder that is no
    [JSONDecodeError] (the [RecursionError] of a deeply nested text,
    the [ValueError] of an integer literal over the digit limit),
    passed on unchanged.  In no case is it a timeout or an
    [aiohttp.ClientError]: those are always translated. *)
Theorem fetch_failure_classes (decode : string -> result value)
        (self : GaiaStationApiClient) (endpoint : string)
        (net : exchange) (e : exception) :
  async_get_data_with decode self endpoint net = Raise e ->
  (In (exc_type e) API_ERRORS
   \/ fails_on_non_object decode net e
   \/ raised_by net = Some e
   \/ raised_by_decoder decode net e)
  /\ isinstance_exc e TimeoutError = false
  /\ isinstance_exc e ClientError = false.
Proof. apply fetch_failure. Qed.

Lemma fetch_failure_classes_witness :
  ((In RecursionError API_ERRORS
    \/ fails_on_non_object deep_nesting_decoder (Response 200 (Text "[[[[")) deep_nesting_error
    \/ raised_by (Response 200 (Text "[[[[")) = Some deep_nesting_error
    \/ raised_by_decoder deep_nesting_decoder (Response 200 (Text "[[[[")) deep_nesting_error)
   /\ issubclass RecursionError TimeoutError = false
   /\ issubclass RecursionError ClientError = false)
  /\
  ((In GaiaStationConnectionError API_ERRORS
    \/ fails_on_non_object Json.loads
         (GetRaises (new_exc ClientPayloadError "Response payload is not completed"))
         (new_exc GaiaStationConnectionError
            "HTTP error connecting to gaia.local: Response payload is not completed")
    \/ raised_by (GetRaises (new_exc ClientPayloadError "Response payload is not completed"))
       = Some (new_exc GaiaStationConnectionError
                 "HTTP error connecting to gaia.local: Response payload is not completed")
    \/ raised_by_decoder Json.loads
         (GetRaises (new_exc ClientPayloadError "Response payload is not completed"))
         (new_exc GaiaStationConnectionError
            "HTTP error connecting to gaia.local: Response payload is not completed"))
   /\ issubclass GaiaStationConnectionError TimeoutError = false
   /\ issubclass GaiaStationConnectionError ClientError = false).
Proof.
  split.
  - apply (fetch_failure_classes deep_nesting_decoder (new_client "gaia.local")
             "/realtime/" (Response 200 (Text "[[[[")) deep_nesting_error).
    reflexivity.
  - apply (fetch_failure_classes Json.loads (new_client "gaia.local") "/realtime/"
             (GetRaises (new_exc ClientPayloadError "Response payload is not completed"))
             (new_exc GaiaStationConnectionError
                "HTTP error connecting to gaia.local: Response payload is not completed")).
    reflexivity.
Defined.

(** X7.  How an update can fail, for every behaviour of the network and
    of the decoder.  The error that reaches the host is [UpdateFailed];
    or the [ValueError] of a body that is no object; or the
    [AttributeError] of the transform, after the raw payload has been
    replaced by the fetched object, whose [pms] is no object; or the
    exception that the network raised; or an exception of the decoder
    that is no [JSONDecodeError].  It is never of the API taxonomy, a
    timeout or an [aiohttp.ClientError]. *)
Theorem update_failure_classes (decode : string -> result value)
        (self : GaiaStationDataUpdateCoordinator)
        (net : exchange) (e : exception) :
  fst (_async_update_data_with decode self net) = Raise e ->
  (exc_type e = UpdateFailed
   \/ fails_on_non_object decode net e
   \/ (exc_type e = AttributeError
       /\ async_get_realtime_data_with decode (client self) net
          = Return (raw_data (snd (_async_update_data_with decode self net)))
       /\ is_dict (dict_get_default "pms"
                     (raw_data (snd (_async_update_data_with decode self net)))
                     (VDict []))
          = false)
   \/ raised_by net = Some e
   \/ raised_by_decoder decode net e)
  /\ isinstance_exc e GaiaStationApiError = false
  /\ isinstance_exc e TimeoutError = false
  /\ isinstance_exc e ClientError = false.
Proof.
  unfold _async_update_data_with, async_get_realtime_data_with.
  destruct (async_get_data_with decode (client self) "/realtime/" net)
    as [payload|e0] eqn:Hfetch.
  - cbn [raw_data].
    destruct (is_dict (dict_get_default "pms" payload (VDict []))) eqn:Hpms.
    + destruct (dict_get_default "pms" payload (VDict [])) as [| | | | | |pms] eqn:E;
        try discriminate Hpms.
      rewrite (flatten_returns _ payload pms E). intros H. discriminate H.
    + rewrite (flatten_raises _ payload Hpms). cbn [fst snd try_except dispatch].
      unfold isinstance_exc at 1. cbn [exc_type new_exc].
      change (issubclass AttributeError GaiaStationApiError) with false. cbv iota.
      intros H. injection H as <-. split; [|repeat split; reflexivity].
      right. right. left. cbn [raw_data]. repeat split; assumption.
  - cbn [fst dispatch].
    destruct (isinstance_exc e0 GaiaStationApiError) eqn:Hapi.
    + intros H. injection H as <-. split; [now left | repeat split; reflexivity].
    + intros H. injection H as <-.
      apply fetch_failure in Hfetch.
      destruct Hfetch as [[H|[H|[H|H]]] [Ht Hc]]; (split; [|auto]).
      * apply api_errors_handled in H. unfold isinstance_exc in Hapi. congruence.
      * right. now left.
      * right. right. right. now left.
      * right. right. right. now right.
Qed.

Lemma update_failure_classes_witness :
  (RecursionError = UpdateFailed
   \/ fails_on_non_object deep_nesting_decoder (Response 200 (Text "[[[[")) deep_nesting_error
   \/ (RecursionError = AttributeError
       /\ async_get_realtime_data_with deep_nesting_decoder (client polled_coordinator)
            (Response 200 (Text "[[[["))
          = Return (raw_data (snd (_async_update_data_with deep_nesting_decoder
                                     polled_coordinator (Response 200 (Text "[[[[")))))
       /\ is_dict (dict_get_default "pms"
                     (raw_data (snd (_async_update_data_with deep_nesting_decoder
                                       polled_coordinator (Response 200 (Text "[[[[")))))
                     (VDict []))
          = false)
   \/ raised_by (Response 200 (Text "[[[[")) = Some deep_nesting_error
   \/ raised_by_decoder deep_nesting_decoder (Response 200 (Text "[[[[")) deep_nesting_error)
  /\ issubclass RecursionError GaiaStationApiError = false
  /\ issubclass RecursionError TimeoutError = false
  /\ issubclass RecursionError ClientError = false.
Proof.
  apply (update_failure_classes deep_nesting_decoder polled_coordinator
           (Response 200 (Text "[[[[")) deep_nesting_error).
  reflexivity.
Defined.

(* ================================================================== *)
(** * The entities of a setup                                          *)
(* ================================================================== *)

Section SetupFacts.

Lemma distinct_NoDup (l : list string) : distinct l = true -> NoDup l.
Proof.
  induction l as [|x l IH]; simpl; intros H; [constructor|].
  apply andb_true_iff in H. destruct H as [Hx Hl]. constructor; [|auto].
  intros Hin. apply negb_true_iff in Hx.
  assert (existsb (String.eqb x) l = true); [|congruence].
  apply existsb_exists. exists x. split; [exact Hin | apply String.eqb_refl].
Qed.

(** Dropping elements keeps their images pairwise different. *)
Lemma filter_keeps_distinct {A B : Type} (image : A -> B) (keep : A -> bool) :
  forall l, NoDup (map image l) -> NoDup (map image (filter keep l)).
Proof.
  intros l. induction l as [|a l IH]; simpl; intros H; [constructor|].
  inversion_clear H as [|? ? Ha Hl]. destruct (keep a); simpl; [|auto].
  constructor; [|auto]. intros Hin. apply Ha.
  apply in_map_iff in Hin. destruct Hin as [x [Hx Hin]].
  apply filter_In in Hin. apply in_map_iff. exists x. tauto.
Qed.

Lemma NoDup_map_prefix {A : Type} (f : A -> string) (p : string) (l : list A) :
  NoDup (map f l) -> NoDup (map (fun a => p ++ f a)%string l).
Proof.
  induction l as [|a l IH]; simpl; intros H; [constructor|].
  inversion_clear H as [|? ? Ha Hl]. constructor; [|auto].
  intros Hin. apply Ha. apply in_map_iff in Hin. destruct Hin as [x [Hx Hin]].
  apply append_inj_l in Hx. apply in_map_iff. now exists x.
Qed.

Lemma flat_map_if_filter {A B : Type} (f : A -> B) (p : A -> bool) (l : list A) :
  flat_map (fun x => if p x then [f x] else []) l = map f (filter p l).
Proof.
  induction l as [|a l IH]; simpl; [reflexivity|].
  rewrite IH. now destruct (p a).
Qed.

Lemma all_sensors_keys : NoDup (map key ALL_SENSORS).
Proof. apply distinct_NoDup. vm_compute. reflexivity. Qed.

Lemma all_sensors_names : NoDup (map name ALL_SENSORS).
Proof. apply distinct_NoDup. vm_compute. reflexivity. Qed.

Lemma all_sensors_length : List.length ALL_SENSORS = 62%nat.
Proof. reflexivity. Qed.

(** Setup goes through the descriptions in order and keeps those whose
    key the map has. *)
Lemma setup_is_filter (coordinator_data : option dict) (entry : ConfigEntry) :
  async_setup_entry coordinator_data entry
  = map (fun d => new_sensor d entry)
        (filter (fun d => dict_contains (key d) (data_or_empty coordinator_data))
                ALL_SENSORS).
Proof.
  unfold async_setup_entry, ALL_SENSORS.
  rewrite build_dynamic_is_filter, filter_app, map_app. f_equal.
  apply (flat_map_if_filter (fun d => new_sensor d entry)
           (fun d => dict_contains (key d) (data_or_empty coordinator_data))).
Qed.

End SetupFacts.

(** X8.  The entities of a setup, whatever the map.  The descriptions
    an entity can come from have the 62 keys written out here: the 17
    of the static catalog, then those of the groups [pms1], [pms2],
    [pms3], three channels and five stat fields each.  The entities
    are those of the descriptions whose key the map has, in that
    order, each once; so no two entities have the same unique id or
    the same name, and there are at most 62 of them. *)
Theorem setup_entities_distinct (coordinator_data : option dict) (entry : ConfigEntry) :
  map key ALL_SENSORS
  = ["rolling_pm25_latest"; "rolling_pm25_mean"; "rolling_pm1_latest";
     "rolling_pm1_mean"; "rolling_pm10_latest"; "rolling_pm10_mean";
     "co2_latest"; "co2_mean"; "co2_min"; "co2_max"; "co2_median";
     "temperature_latest"; "humidity_latest";
     "sys_vpwr"; "sys_heap"; "sys_alive"; "sys_boot"]
    ++ flat_map
         (fun group =>
            flat_map
              (fun channel =>
                 map (fun stat => group ++ "_" ++ channel ++ "_" ++ stat)%string
                     ["latest"; "mean"; "min"; "max"; "median"])
              ["pm25"; "pm1"; "pm10"])
         ["pms1"; "pms2"; "pms3"]
  /\ async_setup_entry coordinator_data entry
     = map (fun d => new_sensor d entry)
           (filter (fun d => dict_contains (key d) (data_or_empty coordinator_data))
                   ALL_SENSORS)
  /\ NoDup (map _attr_unique_id (async_setup_entry coordinator_data entry))
  /\ NoDup (map (fun e => name (entity_description e))
                (async_setup_entry coordinator_data entry))
  /\ (List.length (async_setup_entry coordinator_data entry) <= 62)%nat.
Proof.
  split; [reflexivity|].
  split; [apply setup_is_filter|]. rewrite setup_is_filter, !map_map.
  cbn [_attr_unique_id entity_description new_sensor].
  split; [|split].
  - apply (NoDup_map_prefix (fun d => ("_" ++ key d)%string) (entry_id entry)).
    apply (NoDup_map_prefix key "_"). apply filter_keeps_distinct, all_sensors_keys.
  - apply filter_keeps_distinct, all_sensors_names.
  - rewrite length_map. rewrite <- all_sensors_length. apply filter_length_le.
Qed.

(* ================================================================== *)
(** * Decoded values and the poll, end to end                          *)
(* ================================================================== *)

Section WellFormedFacts.

Lemma dict_set_values (P : value -> Prop) (k : string) (v : value) (d : dict) :
  P v -> Forall (fun kv => P (snd kv)) d ->
  Forall (fun kv => P (snd kv)) (dict_set k v d).
Proof.
  intros Hv. induction d as [|[k' v'] d IH]; simpl; intros Hd.
  - constructor; [exact Hv | constructor].
  - inversion_clear Hd as [|? ? Hv' Hd'].
    destruct (String.eqb k k'); constructor; auto.
Qed.

Lemma dict_get_value (P : value -> Prop) (k : string) (v : value) (d : dict) :
  Forall (fun kv => P (snd kv)) d -> dict_get k d = Some v -> P v.
Proof.
  induction d as [|[k' v'] d IH]; simpl; intros Hd H; [discriminate H|].
  inversion_clear Hd as [|? ? Hv' Hd'].
  destruct (String.eqb k k'); [injection H as <-; exact Hv' | auto].
Qed.

Lemma dict_of_pairs_well_formed (pairs : list (string * value)) :
  Forall (fun kv => well_formed (snd kv)) pairs ->
  well_formed (VDict (dict_of_pairs pairs)).
Proof.
  intros Hp. unfold dict_of_pairs.
  assert (H : forall d,
             NoDup (dict_keys d) /\ Forall (fun kv => well_formed (snd kv)) d ->
             NoDup (dict_keys (fold_left (fun d kv => dict_set (fst kv) (snd kv) d) pairs d))
             /\ Forall (fun kv => well_formed (snd kv))
                  (fold_left (fun d kv => dict_set (fst kv) (snd kv) d) pairs d)).
  { induction Hp as [|[k v] pairs Hv Hp IH]; intros d [Hk Hd]; simpl; [now split|].
    apply IH. split; [now apply dict_set_keys | now apply dict_set_values]. }
  destruct (H []) as [Hk Hd]; [split; constructor|]. now constructor.
Qed.

Section ContainerValues.

Variables (s : string) (scan_value : string -> nat -> scan value).
Hypothesis scan_value_well_formed :
  forall i v e, scan_value s i = Scanned v e -> well_formed v.

Lemma object_loop_well_formed :
  forall fuel end_ pairs v e,
    Forall (fun kv => well_formed (snd kv)) pairs ->
    object_loop scan_value fuel s end_ pairs = Scanned v e -> well_formed v.
Proof.
  induction fuel as [|fuel IH]; intros end_ pairs v e Hp; [discriminate|].
  cbn [object_loop].
  destruct (scanstring fuel s end_) as [key e1| | |]; try discriminate.
  destruct (negb (char_is s (skip_ws s e1) ":")); [discriminate|].
  destruct (scan_value s (skip_ws s (skip_ws s e1 + 1))) as [w e3| | |] eqn:Hw;
    try discriminate.
  apply scan_value_well_formed in Hw.
  assert (Hp' : Forall (fun kv => well_formed (snd kv)) (pairs ++ [(key, w)])).
  { apply Forall_app. split; [exact Hp|]. constructor; [exact Hw | constructor]. }
  destruct (char_is s (skip_ws s e3) "}").
  { intros H. injection H as <- _. now apply dict_of_pairs_well_formed. }
  destruct (negb (char_is s (skip_ws s e3) ",")); [discriminate|].
  destruct (negb (char_is s (skip_ws s (skip_ws s e3 + 1)) DQUOTE)); [discriminate|].
  now apply IH.
Qed.

Lemma JSONObject_well_formed (fuel end_ : nat) (v : value) (e : nat) :
  JSONObject scan_value fuel s end_ = Scanned v e -> well_formed v.
Proof.
  unfold JSONObject.
  destruct (char_is s (skip_ws s end_) "}").
  { intros H. injection H as <- _. constructor; constructor. }
  destruct (negb (char_is s (skip_ws s end_) DQUOTE)); [discriminate|].
  apply object_loop_well_formed. constructor.
Qed.

Lemma array_loop_well_formed :
  forall fuel end_ values v e,
    Forall well_formed values ->
    array_loop scan_value fuel s end_ values = Scanned v e -> well_formed v.
Proof.
  induction fuel as [|fuel IH]; intros end_ values v e Hvs; [discriminate|].
  cbn [array_loop].
  destruct (scan_value s end_) as [w e1| | |] eqn:Hw; try discriminate.
  apply scan_value_well_formed in Hw.
  assert (Hvs' : Forall well_formed (values ++ [w])).
  { apply Forall_app. split; [exact Hvs|]. constructor; [exact Hw | constructor]. }
  destruct (char_is s (skip_ws s e1) "]").
  { intros H. injection H as <- _. now constructor. }
  destruct (negb (char_is s (skip_ws s e1) ",")); [discriminate|].
  now apply IH.
Qed.

Lemma JSONArray_well_formed (fuel end_ : nat) (v : value) (e : nat) :
  JSONArray scan_value fuel s end_ = Scanned v e -> well_formed v.
Proof.
  unfold JSONArray.
  destruct (char_is s (skip_ws s end_) "]").
  { intros H. injection H as <- _. constructor. constructor. }
  apply array_loop_well_formed. constructor.
Qed.

End ContainerValues.

Lemma scan_once_well_formed (s : string) :
  forall fuel idx v e, scan_once fuel s idx = Scanned v e -> well_formed v.
Proof.
  induction fuel as [|fuel IH]; intros idx v e; [discriminate|].
  cbn [scan_once].
  destruct (char_at s idx) as [nextchar|]; [|discriminate].
  destruct (Ascii.eqb nextchar DQUOTE).
  { destruct (scanstring fuel s (idx + 1)); try discriminate.
    intros H. injection H as <- _. constructor. }
  destruct (Ascii.eqb nextchar "{").
  { apply JSONObject_well_formed. exact (IH). }
  destruct (Ascii.eqb nextchar "[").
  { apply JSONArray_well_formed. exact (IH). }
  destruct (slice_is s idx 4 "null"); [intros H; injection H as <- _; constructor|].
  destruct (slice_is s idx 4 "true"); [intros H; injection H as <- _; constructor|].
  destruct (slice_is s idx 5 "false"); [intros H; injection H as <- _; constructor|].
  destruct (match_number s idx) as [[[integer frac] exp]|].
  { destruct ((String.length frac =? 0)%nat && (String.length exp =? 0)%nat);
      intros H; injection H as <- _; constructor. }
  destruct (slice_is s idx 3 "NaN"); [intros H; injection H as <- _; constructor|].
  destruct (slice_is s idx 8 "Infinity"); [intros H; injection H as <- _; constructor|].
  destruct (slice_is s idx 9 "-Infinity"); [intros H; injection H as <- _; constructor|].
  discriminate.
Qed.

Lemma loads_well_formed (s : string) (v : value) :
  loads s = Return v -> well_formed v.
Proof.
  unfold loads. destruct (startswith s BOM); [discriminate|].
  destruct (scan_once (2 * String.length s + 4) s (skip_ws s 0)) as [obj e| | |] eqn:H;
    try discriminate.
  destruct (negb (_ =? _)%nat); [discriminate|].
  intros E. injection E as <-. eapply scan_once_well_formed, H.
Qed.

End WellFormedFacts.

Section PipelineFacts.

(** A fetch that returns has read a body that decodes to the object
    it returns. *)
Lemma fetch_returns_decoded (self : GaiaStationApiClient) (endpoint : string)
      (net : exchange) (payload : dict) :
  async_get_data self endpoint net = Return payload ->
  exists status text,
    net = Response status (Text text) /\ (status < 400)%Z
    /\ loads text = Return (VDict payload).
Proof.
  unfold async_get_data, async_get_data_with. destruct net as [|e0|status [e0|text]].
  - discriminate.
  - cbn [session_get bind try_except dispatch].
    repeat match goal with
           | |- context [if ?c then _ else _] => destruct c
           end; discriminate.
  - cbn [session_get bind fst snd]. unfold raise_for_status.
    destruct (ok status); cbn [bind response_text try_except dispatch];
      repeat match goal with
             | |- context [if ?c then _ else _] => destruct c
             end; discriminate.
  - cbn [session_get bind fst snd]. unfold raise_for_status.
    destruct (ok status) eqn:Hok; [|discriminate].
    cbn [bind response_text].
    destruct (loads_total text) as [[v Hv]|[e0 [He0 Hty]]].
    + rewrite Hv. cbn [bind]. destruct v; cbn [try_except dispatch];
        try discriminate.
      intros H. injection H as <-. exists status, text.
      unfold ok in Hok. apply Z.ltb_lt in Hok. auto.
    + rewrite He0. cbn [bind try_except dispatch].
      unfold isinstance_exc at 1. rewrite Hty. discriminate.
Qed.

(** The [pms] of a well-formed payload, or the default [{}], has
    pairwise distinct keys. *)
Lemma pms_distinct_keys (payload pms : dict) :
  well_formed (VDict payload) ->
  dict_get_default "pms" payload (VDict []) = VDict pms ->
  NoDup (dict_keys pms).
Proof.
  intros Hwf. inversion_clear Hwf as [| | | | | |? _ Hvalues].
  unfold dict_get_default. destruct (dict_get "pms" payload) as [v|] eqn:E.
  - intros ->. apply (dict_get_value well_formed _ _ _ Hvalues) in E.
    now inversion_clear E.
  - intros H. injection H as <-. constructor.
Qed.

End PipelineFacts.

(** X9.  A poll that succeeds, end to end: the response had a status
    below 400 and a body that [json.loads] decodes to an object; that
    object is stored as the raw payload; and the FlatMap handed to the
    host has pairwise distinct keys and holds exactly the bindings
    that the emission rules give for the decoded object. *)
Theorem update_publishes_emitted (self : GaiaStationDataUpdateCoordinator)
        (net : exchange) (flat : dict) :
  fst (_async_update_data self net) = Return flat ->
  exists status text payload,
    net = Response status (Text text) /\ (status < 400)%Z
    /\ loads text = Return (VDict payload)
    /\ raw_data (snd (_async_update_data self net)) = payload
    /\ NoDup (dict_keys flat)
    /\ forall K v, dict_get K flat = Some v <-> emitted payload K v.
Proof.
  unfold _async_update_data, _async_update_data_with, async_get_realtime_data,
    async_get_realtime_data_with.
  change (async_get_data_with loads) with async_get_data.
  destruct (async_get_data (client self) "/realtime/" net) as [payload|e0] eqn:Hfetch.
  - cbn [raw_data]. apply fetch_returns_decoded in Hfetch.
    destruct Hfetch as [status [text [-> [Hs Hloads]]]].
    destruct (is_dict (dict_get_default "pms" payload (VDict []))) eqn:Hpms.
    + destruct (dict_get_default "pms" payload (VDict [])) as [| | | | | |pms] eqn:E;
        try discriminate Hpms.
      pose proof (loads_well_formed _ _ Hloads) as Hwf.
      pose proof (pms_distinct_keys payload pms Hwf E) as Hnodup.
      destruct (flatten_bindings
                  {| client := client self; raw_data := payload |} payload pms E Hnodup)
        as [flat' [Hflat [Hkeys Hbind]]].
      destruct (_flatten_data _ payload) as [outcome self'] eqn:Hcall.
      cbn [fst] in Hflat. subst outcome. cbn [fst snd try_except].
      intros H. injection H as <-.
      exists status, text, payload. repeat split; auto; try apply Hbind.
      pose proof (flatten_returns
                    {| client := client self; raw_data := payload |} payload pms E) as R.
      rewrite Hcall in R. injection R as _ ->. reflexivity.
    + rewrite (flatten_raises _ payload Hpms). cbn [fst try_except dispatch].
      unfold isinstance_exc. cbn [exc_type new_exc].
      change (issubclass AttributeError GaiaStationApiError) with false. cbv iota.
      discriminate.
  - cbn [fst dispatch]. destruct (isinstance_exc e0 GaiaStationApiError); discriminate.
Qed.

Lemma update_publishes_emitted_witness :
  exists status text payload,
    Response 200 (Text ("{" ++ quoted "sys" ++ ": {" ++ quoted "boot" ++ ": 4}}"))
    = Response status (Text text) /\ (status < 400)%Z
    /\ loads text = Return (VDict payload)
    /\ raw_data (snd (_async_update_data polled_coordinator
                        (Response 200 (Text ("{" ++ quoted "sys" ++ ": {"
                                             ++ quoted "boot" ++ ": 4}}")))))
       = payload
    /\ NoDup (dict_keys [("sys_boot", VInt 4)])
    /\ forall K v, dict_get K [("sys_boot", VInt 4)] = Some v <-> emitted payload K v.
Proof.
  apply (update_publishes_emitted polled_coordinator
           (Response 200 (Text ("{" ++ quoted "sys" ++ ": {" ++ quoted "boot" ++ ": 4}}")))
           [("sys_boot", VInt 4)]).
  reflexivity.
Defined.

(* ================================================================== *)
(** * From the payload to the entities                                 *)
(* ================================================================== *)

Section CompositionFacts.

Lemma data_or_empty_some (flat : dict) : data_or_empty (Some flat) = flat.
Proof. now destruct flat. Qed.

Lemma all_sensors_origin (d : GaiaStationSensorEntityDescription) :
  In d ALL_SENSORS -> In d ALL_STATIC_SENSORS \/ In d ALL_DYNAMIC_SENSORS.
Proof. apply in_app_or. Qed.

Lemma dict_contains_get (k : string) (d : dict) :
  dict_contains k d = true <-> exists v, dict_get k d = Some v.
Proof.
  unfold dict_contains. destruct (dict_get k d) as [v|].
  - split; [eauto | reflexivity].
  - split; [discriminate | intros [v H]; discriminate H].
Qed.

(** The entity of a description is in the list of a setup exactly when
    the map has the description's key. *)
Lemma setup_has_entity (flat : dict) (entry : ConfigEntry)
      (d : GaiaStationSensorEntityDescription) :
  In d ALL_SENSORS ->
  (In (new_sensor d entry) (async_setup_entry (Some flat) entry)
   <-> dict_contains (key d) flat = true).
Proof.
  intros Hd. rewrite setup_is_filter, data_or_empty_some, in_map_iff. split.
  - intros [d' [Heq Hin]]. apply (f_equal entity_description) in Heq.
    cbn [entity_description new_sensor] in Heq. subst d'.
    now apply filter_In in Hin.
  - intros Hk. exists d. split; [reflexivity|]. apply filter_In. now split.
Qed.

End CompositionFacts.

(** X10.  From the payload to the entities.  For a payload whose [pms]
    is absent or an object, and the FlatMap the transform makes of it:
    setup creates the entity of a description exactly when an emission
    rule gives the description's key a value, and the entity's value is
    that value. *)
Theorem entity_values_from_payload
        (self : GaiaStationDataUpdateCoordinator) (data pms flat : dict)
        (entry : ConfigEntry) (d : GaiaStationSensorEntityDescription) :
  dict_get_default "pms" data (VDict []) = VDict pms ->
  NoDup (dict_keys pms) ->
  fst (_flatten_data self data) = Return flat ->
  In d ALL_SENSORS ->
  (In (new_sensor d entry) (async_setup_entry (Some flat) entry)
   <-> exists v, emitted data (key d) v)
  /\
  (forall v, native_value (new_sensor d entry) (Some flat) = Some v
             <-> emitted data (key d) v).
Proof.
  intros Hpms Hnodup Hflat Hd.
  destruct (flatten_bindings self data pms Hpms Hnodup) as [flat' [Hflat' [_ Hbind]]].
  rewrite Hflat in Hflat'. injection Hflat' as <-.
  split.
  - rewrite (setup_has_entity flat entry d Hd), dict_contains_get.
    split; intros [v H]; exists v; now apply Hbind.
  - intros v. unfold native_value. cbn [entity_description new_sensor].
    rewrite (value_fn_reads_key d (all_sensors_origin d Hd)). apply Hbind.
Qed.

Lemma entity_values_from_payload_witness :
  (In (new_sensor pms2_pm10_min_description {| entry_id := "01J"; title := "GAIA" |})
      (async_setup_entry
         (Some [("pms2_pm10_min", VFloat "3.9")])
         {| entry_id := "01J"; title := "GAIA" |})
   <-> exists v,
         emitted [("pms", VDict [("pms2", VDict [("pm10", VDict [("min", VFloat "3.9")])])])]
                 (key pms2_pm10_min_description) v)
  /\
  (forall v,
      native_value
        (new_sensor pms2_pm10_min_description {| entry_id := "01J"; title := "GAIA" |})
        (Some [("pms2_pm10_min", VFloat "3.9")]) = Some v
      <-> emitted [("pms", VDict [("pms2", VDict [("pm10", VDict [("min", VFloat "3.9")])])])]
                  (key pms2_pm10_min_description) v).
Proof.
  apply (entity_values_from_payload
           (new_coordinator (new_client "gaia.local"))
           [("pms", VDict [("pms2", VDict [("pm10", VDict [("min", VFloat "3.9")])])])]
           [("pms2", VDict [("pm10", VDict [("min", VFloat "3.9")])])]
           [("pms2_pm10_min", VFloat "3.9")]
           {| entry_id := "01J"; title := "GAIA" |}
           pms2_pm10_min_description).
  - reflexivity.
  - repeat constructor; simpl; intuition discriminate.
  - reflexivity.
  - unfold ALL_SENSORS. apply in_or_app. right.
    cbv [ALL_DYNAMIC_SENSORS PREFIX_CANDIDATES group_descriptions pm_configs
         stat_variants flat_map map app]. simpl. tauto.
Defined.

(** X11.  The catalog and the transform agree on the keys: there is a
    payload from which setup creates the entity of every description,
    static and dynamic, all 62 of them.  No description has a key that
    the transform cannot emit. *)
Theorem every_sensor_reachable
        (self : GaiaStationDataUpdateCoordinator) (entry : ConfigEntry) :
  exists data flat,
    fst (_flatten_data self data) = Return flat
    /\ (forall d, In d ALL_SENSORS ->
                  In (new_sensor d entry) (async_setup_entry (Some flat) entry))
    /\ List.length (async_setup_entry (Some flat) entry) = 62%nat.
Proof.
  exists full_payload. eexists. split.
  - rewrite (flatten_returns self full_payload _ eq_refl). reflexivity.
  - assert (Hall : forallb
                     (fun d => dict_contains (key d)
                                 (emit_sys full_payload
                                    (emit_met full_payload
                                       (emit_co2 full_payload
                                          (emit_rolling
                                             (map (fun g => (g, channels_block))
                                                  (PREFIX_CANDIDATES ++ ["rolling"]))
                                             (emit_groups
                                                (map (fun g => (g, channels_block))
                                                     (PREFIX_CANDIDATES ++ ["rolling"]))
                                                []))))))
                     ALL_SENSORS = true) by (vm_compute; reflexivity).
    split.
    + intros d Hd. apply setup_has_entity; [exact Hd|].
      rewrite forallb_forall in Hall. now apply Hall.
    + rewrite setup_is_filter, length_map, data_or_empty_some.
      rewrite (forallb_filter_id _ _ Hall). reflexivity.
Qed.
